(** * Telemetry log tools of the VPS simulator: a shallow embedding

    The development follows the Python sources:
    - [tools/log_parser/sim_log_parser.py]  text logs (line grammar, filters, split by vehicle)
    - [tools/log_parser/log_parser.py], [scripts/parse_edge_log.py],
      [scripts/parse_edge_transit_log.py]   28-byte edge-transit records
    - [tools/log_parser/fb_parser.py]       checkpoint flag decoding

    Text is modelled as [string] over 8-bit characters, read as the code
    points 0..255 of a Python [str]; the character classes of [re] and of
    [str.strip]/[str.lower] are the ones Python uses on that range. *)

From Stdlib Require Import ZArith NArith List String Ascii Bool Lia Permutation Sorted.
From Stdlib Require Import Floats Strings.Byte.
From Equations Require Import Equations.
From stdpp Require Import base decidable option gmap sets strings sorting.

Import ListNotations.
Local Open Scope string_scope.
Local Open Scope Z_scope.
Local Arguments String.append : simpl nomatch.

(* ===================================================================== *)
(** * Part I. Definitions *)
(* ===================================================================== *)

(** Option as the exception monad: [None] is a raised exception. *)
Notation "'do' x <- e1 ; e2" :=
  (match e1 with Some x => e2 | None => None end)
  (at level 10, x name, e1 at level 100, e2 at level 200, only parsing).

Definition nl : string := String "010" EmptyString.

(** ** The Python runtime pieces the sources call *)
Module Py.

Definition code (c : ascii) : N := N_of_ascii c.

Definition between (lo hi : N) (c : ascii) : bool :=
  ((lo <=? code c) && (code c <=? hi))%N.

(** [str.isdecimal] on one character; also [\d] of [re]. *)
Definition isdecimal (c : ascii) : bool := between 48 57 c.

(** [str.isspace] on one character; also [\s] of [re] and the set that
    [str.strip()] removes. *)
Definition isspace (c : ascii) : bool :=
  between 9 13 c || between 28 32 c || (code c =? 133)%N || (code c =? 160)%N.

(** [\w] of [re] for [str] patterns: alphanumeric or underscore. *)
Definition isword (c : ascii) : bool :=
  between 48 57 c || between 65 90 c || between 97 122 c || (code c =? 95)%N
  || (code c =? 170)%N || (code c =? 178)%N || (code c =? 179)%N
  || (code c =? 181)%N || between 185 186 c || between 188 190 c
  || between 192 214 c || between 216 246 c || between 248 255 c.

Definition digit_value (c : ascii) : Z := Z.of_N (code c) - 48.

(** [s.lstrip()], [s.rstrip()], [s.strip()]. *)
Fixpoint lstrip (s : string) : string :=
  match s with
  | String c s' => if isspace c then lstrip s' else s
  | EmptyString => EmptyString
  end.

Fixpoint rstrip (s : string) : string :=
  match s with
  | String c s' =>
      match rstrip s' with
      | EmptyString => if isspace c then EmptyString else String c EmptyString
      | r => String c r
      end
  | EmptyString => EmptyString
  end.

Definition strip (s : string) : string := rstrip (lstrip s).

(** [s.split(sep)] for a one-character separator: never empty. *)
Fixpoint split (sep : ascii) (s : string) : list string :=
  match s with
  | EmptyString => [EmptyString]
  | String c s' =>
      if Ascii.eqb c sep then EmptyString :: split sep s'
      else match split sep s' with
           | p :: ps => String c p :: ps
           | [] => [String c EmptyString]
           end
  end.

(** [parts[i]]: [None] is [IndexError]. *)
Definition index {A} (l : list A) (i : nat) : option A := nth_error l i.

(** The digit part of an integer literal: decimal digits, single
    underscores allowed between digits. *)
Fixpoint int_digits (s : string) (acc : Z) (after_digit : bool) : option Z :=
  match s with
  | EmptyString => if after_digit then Some acc else None
  | String c s' =>
      if isdecimal c then int_digits s' (acc * 10 + digit_value c) true
      else if Ascii.eqb c "_" && after_digit then
             match s' with
             | String d _ => if isdecimal d then int_digits s' acc false else None
             | EmptyString => None
             end
      else None
  end.

(** [int(s)] in base ten: surrounding whitespace, an optional sign;
    [None] is [ValueError].  The interpreter's configurable limit on the
    number of digits is not modelled. *)
Definition int (s : string) : option Z :=
  match strip s with
  | String "-" d => do v <- int_digits d 0 false; Some (- v)
  | String "+" d => int_digits d 0 false
  | d => int_digits d 0 false
  end.

(** [s.lower()] on the modelled range. *)
Definition lower_char (c : ascii) : ascii :=
  if between 65 90 c || between 192 214 c || between 216 222 c
  then ascii_of_N (code c + 32) else c.

Fixpoint lower (s : string) : string :=
  match s with
  | String c s' => String (lower_char c) (lower s')
  | EmptyString => EmptyString
  end.

(** [needle in hay]. *)
Fixpoint contains (needle hay : string) : bool :=
  String.prefix needle hay
  || match hay with
     | String _ hay' => contains needle hay'
     | EmptyString => false
     end.

(** [c in s] for one character. *)
Fixpoint has_char (c : ascii) (s : string) : bool :=
  match s with
  | String d s' => Ascii.eqb c d || has_char c s'
  | EmptyString => false
  end.

(** [f"{s:5}"]: left-justified in a field of [w] characters. *)
Fixpoint spaces (n : nat) : string :=
  match n with O => EmptyString | S n' => String " " (spaces n') end.

Definition ljust (w : nat) (s : string) : string :=
  s ++ spaces (w - String.length s).

(** [str(n)] for an integer. *)
Fixpoint pos_digits (fuel : nat) (n : Z) (acc : string) : string :=
  match fuel with
  | O => acc
  | S fuel' =>
      let acc' := String (ascii_of_N (Z.to_N (48 + n mod 10))) acc in
      if n <? 10 then acc' else pos_digits fuel' (n / 10) acc'
  end.

Definition str_of_int (n : Z) : string :=
  if n <? 0 then String "-" (pos_digits (Z.to_nat (Z.log2 (- n)) + 1) (- n) EmptyString)
  else pos_digits (Z.to_nat (Z.log2 n) + 1) n EmptyString.

(** ["sep".join(parts)]. *)
Fixpoint join (sep : string) (parts : list string) : string :=
  match parts with
  | [] => EmptyString
  | [p] => p
  | p :: ps => p ++ sep ++ join sep ps
  end.

End Py.

(** ** Regular expressions as [re] runs them

    Backtracking, greedy, leftmost alternative first.  The two patterns of
    the sources repeat only one-character classes, so repetition is over
    a class. *)
Module Re.

Inductive regex : Type :=
| Lit (c : ascii)                 (* an escaped or plain character *)
| Cls (p : ascii -> bool)         (* \d, \w, \s, [^\]], . *)
| Seq (r1 r2 : regex)
| Star (p : ascii -> bool)        (* p*  greedy *)
| Plus (p : ascii -> bool)        (* p+  greedy *)
| Group (i : nat) (r : regex).    (* the i-th capturing group *)

Definition captures := list (nat * string).

(** The text consumed between input [s] and its suffix [s']. *)
Definition consumed (s s' : string) : string :=
  String.substring 0 (String.length s - String.length s') s.

Fixpoint star {A} (p : ascii -> bool) (s : string) (k : string -> option A)
  : option A :=
  match s with
  | String c s' =>
      if p c then
        match star p s' k with
        | Some r => Some r
        | None => k s
        end
      else k s
  | EmptyString => k s
  end.

Fixpoint run (r : regex) (s : string) (cs : captures)
         (k : string -> captures -> option captures) : option captures :=
  match r with
  | Lit c =>
      match s with
      | String d s' => if Ascii.eqb c d then k s' cs else None
      | EmptyString => None
      end
  | Cls p =>
      match s with
      | String d s' => if p d then k s' cs else None
      | EmptyString => None
      end
  | Seq r1 r2 => run r1 s cs (fun s' cs' => run r2 s' cs' k)
  | Star p => star p s (fun s' => k s' cs)
  | Plus p =>
      match s with
      | String d s' => if p d then star p s' (fun s'' => k s'' cs) else None
      | EmptyString => None
      end
  | Group i r => run r s cs (fun s' cs' => k s' ((i, consumed s s') :: cs'))
  end.

(** [pattern.match(s)]: anchored at the start, free at the end. *)
Definition re_match (r : regex) (s : string) : option captures :=
  run r s [] (fun _ cs => Some cs).

(** [m.group(i)]. *)
Fixpoint group (m : captures) (i : nat) : string :=
  match m with
  | (j, w) :: m' => if Nat.eqb i j then w else group m' i
  | [] => EmptyString
  end.

(** What a pattern means, apart from the order in which [run] tries
    the alternatives: [denotes r w cs cs'] when [r] can consume exactly
    [w], turning the captures [cs] into [cs']. *)
Fixpoint all_chars (p : ascii -> bool) (w : string) : bool :=
  match w with
  | String c w' => p c && all_chars p w'
  | EmptyString => true
  end.

Fixpoint denotes (r : regex) (w : string) (cs cs' : captures) : Prop :=
  match r with
  | Lit c => w = String c EmptyString /\ cs' = cs
  | Cls p => exists c, w = String c EmptyString /\ p c = true /\ cs' = cs
  | Seq r1 r2 =>
      exists w1 w2 cs1,
        w = w1 ++ w2 /\ denotes r1 w1 cs cs1 /\ denotes r2 w2 cs1 cs'
  | Star p => all_chars p w = true /\ cs' = cs
  | Plus p => w <> EmptyString /\ all_chars p w = true /\ cs' = cs
  | Group i r => exists cs1, denotes r w cs cs1 /\ cs' = (i, w) :: cs1
  end.

Fixpoint seq_all (rs : list regex) (last : regex) : regex :=
  match rs with
  | [] => last
  | r :: rs' => Seq r (seq_all rs' last)
  end.

(** [r{n}] for [n >= 1] followed by [next]. *)
Fixpoint times (n : nat) (r : regex) (next : regex) : regex :=
  match n with
  | O => next
  | S n' => Seq r (times n' r next)
  end.

Definition digit : regex := Cls Py.isdecimal.
Definition not_rbracket (c : ascii) : bool := negb (Ascii.eqb c "]").
Definition dot (c : ascii) : bool := negb (Ascii.eqb c "010").

(** [s] does not begin with a character of class [p]. *)
Definition stops (p : ascii -> bool) (s : string) : bool :=
  match s with
  | String c _ => negb (p c)
  | EmptyString => true
  end.

(** The longest prefix of [s] made of characters of class [p], which is
    what a greedy [p*] takes first, and what follows it. *)
Fixpoint span_of (p : ascii -> bool) (s : string) : string :=
  match s with
  | String c s' => if p c then String c (span_of p s') else EmptyString
  | EmptyString => EmptyString
  end.

Fixpoint after_span (p : ascii -> bool) (s : string) : string :=
  match s with
  | String c s' => if p c then after_span p s' else s
  | EmptyString => EmptyString
  end.

End Re.

(** ** tools/log_parser/sim_log_parser.py *)
Module sim_log_parser.
Import Re.

(** [\d{2}:\d{2}:\d{2}\.\d{3}] *)
Definition TIMESTAMP : regex :=
  times 2 digit (Seq (Lit ":")
 (times 2 digit (Seq (Lit ":")
 (times 2 digit (Seq (Lit ".")
 (Seq digit (Seq digit digit))))))).

Definition LOG_PATTERN : regex :=
  seq_all
    [ Lit "["; Group 1 TIMESTAMP; Lit "]"; Star Py.isspace;
      Lit "["; Group 2 (Plus Py.isword); Star Py.isspace; Lit "]"; Star Py.isspace;
      Lit "["; Group 3 (Plus not_rbracket); Lit "]"; Star Py.isspace;
      Lit "["; Group 4 (Plus not_rbracket); Lit "]"; Star Py.isspace;
      Lit "["; Group 5 (Plus not_rbracket); Lit "]"; Star Py.isspace ]
    (Group 6 (Star dot)).

(** [veh:(\d+)] *)
Definition VEH_PATTERN : regex :=
  seq_all [ Lit "v"; Lit "e"; Lit "h"; Lit ":" ] (Group 1 (Plus Py.isdecimal)).

Record LogEntry : Type := mkLogEntry {
  timestamp : string;
  level : string;
  scope : string;
  source : string;
  tag : string;
  message : string;
  line_num : Z
}.

Definition veh_id (e : LogEntry) : option Z :=
  match re_match VEH_PATTERN (scope e) with
  | Some m => Py.int (group m 1)
  | None => None
  end.

Definition is_global (e : LogEntry) : bool := String.eqb (scope e) "global".

Definition file_name (e : LogEntry) : string :=
  if Py.has_char ":" (source e)
  then match Py.split ":" (source e) with p :: _ => p | [] => source e end
  else source e.

(** [None] is the [ValueError]/[IndexError] of a malformed timestamp. *)
Definition time_ms (e : LogEntry) : option Z :=
  let parts := Py.split ":" (timestamp e) in
  do p0 <- Py.index parts 0;
  do h <- Py.int p0;
  do p1 <- Py.index parts 1;
  do m <- Py.int p1;
  do p2 <- Py.index parts 2;
  let s_parts := Py.split "." p2 in
  do q0 <- Py.index s_parts 0;
  do s <- Py.int q0;
  do q1 <- Py.index s_parts 1;
  do ms <- Py.int q1;
  Some (((h * 60 + m) * 60 + s) * 1000 + ms).

(** The text [h1 h2 : m1 m2 : s1 s2 . k1 k2 k3] and the numbers its
    fields spell. *)
Definition timestamp_text (h1 h2 m1 m2 s1 s2 k1 k2 k3 : ascii) : string :=
  String h1 (String h2 (String ":" (String m1 (String m2 (String ":"
  (String s1 (String s2 (String "." (String k1 (String k2 (String k3
  EmptyString))))))))))).

Definition two_digits (a b : ascii) : Z :=
  Py.digit_value a * 10 + Py.digit_value b.

Definition three_digits (a b c : ascii) : Z :=
  (Py.digit_value a * 10 + Py.digit_value b) * 10 + Py.digit_value c.

Definition clock_ms (h m s ms : Z) : Z := ((h * 60 + m) * 60 + s) * 1000 + ms.

(** [str(entry)] *)
Definition to_str (e : LogEntry) : string :=
  "[" ++ timestamp e ++ "] [" ++ Py.ljust 5 (level e) ++ "] [" ++ scope e
  ++ "] [" ++ source e ++ "] [" ++ tag e ++ "] " ++ message e.

Definition parse_line (line : string) (line_num : Z) : option LogEntry :=
  match re_match LOG_PATTERN (Py.strip line) with
  | None => None
  | Some m =>
      Some {| timestamp := group m 1;
              level := Py.strip (group m 2);
              scope := group m 3;
              source := group m 4;
              tag := group m 5;
              message := group m 6;
              line_num := line_num |}
  end.

(** *** filter_entries *)

Record FilterConfig : Type := mkFilterConfig {
  levels : option (gset string);
  veh_ids : option (gset Z);
  tags : option (gset string);
  files : option (gset string);
  include_global : bool;
  time_start : option string;
  time_end : option string;
  search : option string
}.

(** Truth value of an [Optional[Set]]: [None] and the empty set are false. *)
Definition truthy_set `{Countable A} (s : option (gset A)) : bool :=
  match s with
  | Some x => negb (bool_decide (x = ∅))
  | None => false
  end.

Definition truthy_str (s : option string) : bool :=
  match s with
  | Some x => negb (String.eqb x EmptyString)
  | None => false
  end.

Definition not_in `{Countable A} (x : A) (s : option (gset A)) : bool :=
  match s with
  | Some X => negb (bool_decide (x ∈ X))
  | None => true
  end.

(** The preamble that turns [--from]/[--to] into milliseconds.  The
    outer [None] is an exception of [int] or of indexing; the inner
    [None] is the Python [None] the variable keeps. *)
Definition time_bound_ms (t : option string) : option (option Z) :=
  if truthy_str t then
    let parts := Py.split ":" (default EmptyString t) in
    if (2 <=? length parts)%nat then
      do p0 <- Py.index parts 0;
      do h <- Py.int p0;
      do p1 <- Py.index parts 1;
      do m <- Py.int p1;
      do s <- (if (2 <? length parts)%nat then
                 do p2 <- Py.index parts 2;
                 do q0 <- Py.index (Py.split "." p2) 0;
                 Py.int q0
               else Some 0);
      Some (Some (((h * 60 + m) * 60 + s) * 1000))
    else Some None
  else Some None.

(** Truth value of [time_start_ms]: [None] and [0] are false. *)
Definition truthy_int (t : option Z) : bool :=
  match t with
  | Some v => negb (v =? 0)
  | None => false
  end.

(** The conditions of the [if ...: continue] statements of the loop, in
    source order.  Each answers [Some true] when the entry is skipped;
    [None] is an exception raised while evaluating it. *)
Section Skips.
Variable cfg : FilterConfig.
Variables time_start_ms time_end_ms : option Z.

Definition skip_level (e : LogEntry) : option bool :=
  Some (truthy_set (levels cfg) && not_in (level e) (levels cfg)).

Definition skip_veh (e : LogEntry) : option bool :=
  match veh_ids cfg with
  | Some V =>
      if is_global e then Some (negb (include_global cfg))
      else match veh_id e with
           | Some v => Some (negb (bool_decide (v ∈ V)))
           | None => Some true
           end
  | None => Some false
  end.

Definition skip_tag (e : LogEntry) : option bool :=
  Some (truthy_set (tags cfg) && not_in (tag e) (tags cfg)).

Definition skip_file (e : LogEntry) : option bool :=
  Some (truthy_set (files cfg) && not_in (file_name e) (files cfg)).

Definition skip_time_start (e : LogEntry) : option bool :=
  if truthy_int time_start_ms then
    do t <- time_ms e; Some (t <? default 0 time_start_ms)
  else Some false.

Definition skip_time_end (e : LogEntry) : option bool :=
  if truthy_int time_end_ms then
    do t <- time_ms e; Some (default 0 time_end_ms <? t)
  else Some false.

Definition skip_search (e : LogEntry) : option bool :=
  Some (truthy_str (search cfg)
        && negb (Py.contains (Py.lower (default EmptyString (search cfg)))
                             (Py.lower (message e)))).

(** One turn of the loop body: [Some true] when the entry is yielded. *)
Definition passes (e : LogEntry) : option bool :=
  do b <- skip_level e; if b : bool then Some false else
  do b <- skip_veh e; if b : bool then Some false else
  do b <- skip_tag e; if b : bool then Some false else
  do b <- skip_file e; if b : bool then Some false else
  do b <- skip_time_start e; if b : bool then Some false else
  do b <- skip_time_end e; if b : bool then Some false else
  do b <- skip_search e; if b : bool then Some false else
  Some true.

(** The two statements under [# Time filter]. *)
Definition time_filter (e : LogEntry) : option bool :=
  do b <- skip_time_start e; if b : bool then Some false else
  do b <- skip_time_end e; if b : bool then Some false else
  Some true.

Fixpoint filter_loop (entries : list LogEntry) : option (list LogEntry) :=
  match entries with
  | [] => Some []
  | e :: rest =>
      do b <- passes e;
      do out <- filter_loop rest;
      Some (if b : bool then e :: out else out)
  end.

End Skips.

Definition filter_entries (cfg : FilterConfig) (entries : list LogEntry)
  : option (list LogEntry) :=
  do time_start_ms <- time_bound_ms (time_start cfg);
  do time_end_ms <- time_bound_ms (time_end cfg);
  filter_loop cfg time_start_ms time_end_ms entries.



(** [stream_log_file]: the entries of the lines that parse. *)
Fixpoint stream_from (n : Z) (lines : list string) : list LogEntry :=
  match lines with
  | [] => []
  | l :: rest =>
      match parse_line l n with
      | Some e => e :: stream_from (n + 1) rest
      | None => stream_from (n + 1) rest
      end
  end.

Definition stream_log_file (lines : list string) : list LogEntry :=
  stream_from 1 lines.

(** *** split_by_veh

    Output files are modelled by what was written to them and whether
    they are still open.  The file operations may raise: an environment
    says which ones do. *)

Inductive sink_status : Type :=
| Open           (* opened, [close] not called *)
| Closed         (* [close] returned *)
| CloseRaised.   (* [close] was called and raised *)

Record sink : Type := mkSink {
  path : string;
  written : list string;     (* one element per [write] call *)
  status : sink_status
}.

Record io_env : Type := mkEnv {
  read_raises : Z -> bool;     (* reading line n of the input raises *)
  open_raises : Z -> bool;     (* the [open] done while handling line n raises *)
  write_raises : Z -> bool;    (* the [write] done while handling line n raises *)
  close_raises : string -> bool  (* closing the file at this path raises *)
}.

Inductive outcome : Type := Normal | Raised.

Record split_state : Type := mkSplit {
  veh_files : list (Z * sink);     (* dict, in insertion order *)
  global_file : option sink;
  veh_counts : gmap Z Z;           (* defaultdict(int) *)
  global_count : Z;
  total : Z;
  skipped : Z
}.

Definition init_state : split_state :=
  {| veh_files := []; global_file := None; veh_counts := ∅;
     global_count := 0; total := 0; skipped := 0 |}.

Definition veh_path (v : Z) : string := "veh_" ++ Py.str_of_int v ++ ".txt".
Definition global_path : string := "global.txt".

Definition open_w (p : string) : sink :=
  {| path := p; written := []; status := Open |}.

Definition write (f : sink) (data : string) : sink :=
  {| path := path f; written := (written f ++ [data])%list; status := status f |}.

(** [d[k]] and [d[k] = x] on an insertion-ordered dict. *)
Fixpoint dict_get {V} (d : list (Z * V)) (k : Z) : option V :=
  match d with
  | [] => None
  | (k', x) :: d' => if k' =? k then Some x else dict_get d' k
  end.

Fixpoint dict_set {V} (d : list (Z * V)) (k : Z) (x : V) : list (Z * V) :=
  match d with
  | [] => [(k, x)]
  | (k', y) :: d' => if k' =? k then (k', x) :: d' else (k', y) :: dict_set d' k x
  end.

Definition set_veh_files (st : split_state) (d : list (Z * sink)) : split_state :=
  {| veh_files := d; global_file := global_file st; veh_counts := veh_counts st;
     global_count := global_count st; total := total st; skipped := skipped st |}.

Definition set_global_file (st : split_state) (g : option sink) : split_state :=
  {| veh_files := veh_files st; global_file := g; veh_counts := veh_counts st;
     global_count := global_count st; total := total st; skipped := skipped st |}.

Section WithEnv.
Variable env : io_env.

(** [if global_file is None: global_file = open(...)] then
    [global_file.write(data)]. *)
Definition write_global (st : split_state) (n : Z) (data : string)
  : split_state * outcome :=
  match global_file st with
  | Some g =>
      if write_raises env n then (st, Raised)
      else (set_global_file st (Some (write g data)), Normal)
  | None =>
      if open_raises env n then (st, Raised)
      else
        let st1 := set_global_file st (Some (open_w global_path)) in
        if write_raises env n then (st1, Raised)
        else (set_global_file st (Some (write (open_w global_path) data)), Normal)
  end.

(** [if veh_id not in veh_files: veh_files[veh_id] = open(...)] then
    [veh_files[veh_id].write(data)]. *)
Definition write_veh (st : split_state) (n : Z) (v : Z) (data : string)
  : split_state * outcome :=
  match dict_get (veh_files st) v with
  | Some f =>
      if write_raises env n then (st, Raised)
      else (set_veh_files st (dict_set (veh_files st) v (write f data)), Normal)
  | None =>
      if open_raises env n then (st, Raised)
      else
        let f := open_w (veh_path v) in
        if write_raises env n
        then (set_veh_files st (dict_set (veh_files st) v f), Raised)
        else (set_veh_files st (dict_set (veh_files st) v (write f data)), Normal)
  end.

Definition bump_total (st : split_state) : split_state :=
  {| veh_files := veh_files st; global_file := global_file st;
     veh_counts := veh_counts st; global_count := global_count st;
     total := total st + 1; skipped := skipped st |}.

Definition bump_skipped (st : split_state) : split_state :=
  {| veh_files := veh_files st; global_file := global_file st;
     veh_counts := veh_counts st; global_count := global_count st;
     total := total st; skipped := skipped st + 1 |}.

Definition bump_global_count (st : split_state) : split_state :=
  {| veh_files := veh_files st; global_file := global_file st;
     veh_counts := veh_counts st; global_count := global_count st + 1;
     total := total st; skipped := skipped st |}.

Definition bump_veh_count (st : split_state) (v : Z) : split_state :=
  {| veh_files := veh_files st; global_file := global_file st;
     veh_counts := <[v := default 0 (veh_counts st !! v) + 1]> (veh_counts st);
     global_count := global_count st;
     total := total st; skipped := skipped st |}.

(** The body of the [for] loop for line [n]. *)
Definition split_step (st : split_state) (n : Z) (line : string)
  : split_state * outcome :=
  let st := bump_total st in
  match parse_line line n with
  | None =>
      match write_global st n line with
      | (st', Normal) => (bump_skipped st', Normal)
      | r => r
      end
  | Some entry =>
      match veh_id entry with
      | Some v =>
          match write_veh st n v (to_str entry ++ nl) with
          | (st', Normal) => (bump_veh_count st' v, Normal)
          | r => r
          end
      | None =>
          match write_global st n (to_str entry ++ nl) with
          | (st', Normal) => (bump_global_count st', Normal)
          | r => r
          end
      end
  end.

(** The [for] loop over the lines from number [n] on. *)
Fixpoint split_loop (st : split_state) (n : Z) (lines : list string)
  : split_state * outcome :=
  match lines with
  | [] => (st, Normal)
  | line :: rest =>
      if read_raises env n then (st, Raised)
      else match split_step st n line with
           | (st', Normal) => split_loop st' (n + 1) rest
           | r => r
           end
  end.

Definition close (f : sink) : sink * outcome :=
  if close_raises env (path f)
  then ({| path := path f; written := written f; status := CloseRaised |}, Raised)
  else ({| path := path f; written := written f; status := Closed |}, Normal).

(** [for f in veh_files.values(): f.close()] *)
Fixpoint close_all (d : list (Z * sink)) : list (Z * sink) * outcome :=
  match d with
  | [] => ([], Normal)
  | (v, f) :: d' =>
      match close f with
      | (f', Normal) => let (d'', o) := close_all d' in ((v, f') :: d'', o)
      | (f', Raised) => ((v, f') :: d', Raised)
      end
  end.

(** The [finally] block. *)
Definition finally_block (st : split_state) : split_state * outcome :=
  match close_all (veh_files st) with
  | (d, Normal) =>
      match global_file st with
      | Some g => let (g', o) := close g in
                  (set_global_file (set_veh_files st d) (Some g'), o)
      | None => (set_veh_files st d, Normal)
      end
  | (d, Raised) => (set_veh_files st d, Raised)
  end.

(** [try: ... finally: ...]: the state the files are left in, and
    whether an exception leaves the function. *)
Definition split_by_veh (lines : list string) : split_state * outcome :=
  let (st, o) := split_loop init_state 1 lines in
  let (st', o') := finally_block st in
  (st', match o, o' with Normal, Normal => Normal | _, _ => Raised end).
End WithEnv.

Definition quiet : io_env :=
  {| read_raises := fun _ => false; open_raises := fun _ => false;
     write_raises := fun _ => false; close_raises := fun _ => false |}.

(** Where a line goes and what is written there. *)
Inductive sink_key : Type := VehSink (v : Z) | GlobalSink.

Definition route (line : string) (n : Z) : sink_key * string :=
  match parse_line line n with
  | None => (GlobalSink, line)
  | Some entry =>
      match veh_id entry with
      | Some v => (VehSink v, (to_str entry ++ nl)%string)
      | None => (GlobalSink, (to_str entry ++ nl)%string)
      end
  end.

Definition sink_of (st : split_state) (k : sink_key) : option sink :=
  match k with
  | VehSink v => dict_get (veh_files st) v
  | GlobalSink => global_file st
  end.

(** The lines a sink holds; nothing if it was never opened. *)
Definition lines_in (st : split_state) (k : sink_key) : list string :=
  match sink_of st k with
  | Some f => written f
  | None => []
  end.

Definition all_sinks (st : split_state) : list sink :=
  (map snd (veh_files st) ++ match global_file st with Some g => [g] | None => [] end)%list.

Definition lines_written (st : split_state) : nat :=
  list_sum (map (fun f => length (written f)) (all_sinks st)).

Definition sink_key_eqb (a b : sink_key) : bool :=
  match a, b with
  | VehSink v, VehSink w => v =? w
  | GlobalSink, GlobalSink => true
  | _, _ => false
  end.

(** The texts that the lines numbered from [n] send to sink [k], in
    input order. *)
Fixpoint sent_to (k : sink_key) (n : Z) (lines : list string) : list string :=
  match lines with
  | [] => []
  | line :: rest =>
      if sink_key_eqb (fst (route line n)) k
      then snd (route line n) :: sent_to k (n + 1) rest
      else sent_to k (n + 1) rest
  end.

(** No file operation raises. *)
Definition no_io_error (env : io_env) : Prop :=
  (forall n, read_raises env n = false)
  /\ (forall n, open_raises env n = false)
  /\ (forall n, write_raises env n = false)
  /\ (forall p, close_raises env p = false).


(** Bookkeeping for the proofs about [split_by_veh]. *)

(** The number of [write] calls recorded in a dict of sinks. *)
Definition data_count (d : list (Z * sink)) : nat :=
  list_sum (map (fun f => length (written f)) (map snd d)).

(** [st'] is [st] with one more text, [data], in sink [k] and nothing
    else written anywhere. *)
Definition one_more (st st' : split_state) (k : sink_key) (data : string) : Prop :=
  (forall k', lines_in st' k'
              = if sink_key_eqb k k' then (lines_in st k' ++ [data])%list
                else lines_in st k')
  /\ lines_written st' = S (lines_written st).




(** An environment in which only closing the file at [p] raises. *)
Definition close_fails_on (p : string) : io_env :=
  {| read_raises := fun _ => false; open_raises := fun _ => false;
     write_raises := fun _ => false; close_raises := String.eqb p |}.

(** *** The callers of [filter_entries] *)




(** [export_filtered]: no file filter, global entries included. *)
Definition export_filtered (lines : list string)
    (levels : option (gset string)) (veh_ids : option (gset Z))
    (tags : option (gset string)) (time_start time_end search : option string)
  : option (list string) :=
  do filtered <-
    filter_entries
      {| sim_log_parser.levels := levels; sim_log_parser.veh_ids := veh_ids;
         sim_log_parser.tags := tags; files := None; include_global := true;
         sim_log_parser.time_start := time_start;
         sim_log_parser.time_end := time_end;
         sim_log_parser.search := search |}
      (stream_log_file lines);
  Some (map (fun e => to_str e ++ nl) filtered).


(** [print_entries], head mode, on the entries not yet filtered: the
    filter is a generator, so an entry is filtered only when the loop
    asks for it.  The result is the entries printed, and whether the loop
    was left by [break]. *)
Section Head.
Variable cfg : FilterConfig.
Variables time_start_ms time_end_ms : option Z.
Variable limit : Z.

End Head.





(** *** Vocabulary of the properties of [split_by_veh] *)



(** What one turn of the loop adds to sink [k]: the text, when the turn
    ends normally and the line goes to [k]; nothing otherwise. *)
Definition added (o : outcome) (k' k : sink_key) (data : string) : list string :=
  match o with
  | Normal => if sink_key_eqb k' k then [data] else []
  | Raised => []
  end.

(** The number a string of decimal digits spells, read after [acc]. *)
Fixpoint dec_val (s : string) (acc : Z) : Z :=
  match s with
  | String c s' => dec_val s' (acc * 10 + Py.digit_value c)
  | EmptyString => acc
  end.

(** Reading back what [str] wrote for an integer. *)
Definition unstr (s : string) : Z :=
  match s with
  | String c d => if Ascii.eqb c "-" then - dec_val d 0 else dec_val s 0
  | EmptyString => 0
  end.

(** *** Vocabulary of the properties of [parse_line] *)

(** A bracketed field: not empty, no closing bracket inside. *)
Definition field_ok (w : string) : Prop :=
  w <> EmptyString /\ all_chars not_rbracket w = true.

(** The shape of an entry: a timestamp dd:dd:dd.ddd, a level of word
    characters, three bracketed fields, a message without a newline that
    does not begin with whitespace. *)
Definition well_formed (e : LogEntry) : Prop :=
  (exists h1 h2 m1 m2 s1 s2 k1 k2 k3,
      List.Forall (fun c => Py.isdecimal c = true) [h1; h2; m1; m2; s1; s2; k1; k2; k3]
      /\ timestamp e = timestamp_text h1 h2 m1 m2 s1 s2 k1 k2 k3)
  /\ (level e <> EmptyString /\ all_chars Py.isword (level e) = true)
  /\ field_ok (scope e) /\ field_ok (source e) /\ field_ok (tag e)
  /\ all_chars dot (message e) = true
  /\ Py.lstrip (message e) = message e.

(** The entry with another line number. *)
Definition renumber (e : LogEntry) (n : Z) : LogEntry :=
  {| timestamp := timestamp e; level := level e; scope := scope e;
     source := source e; tag := tag e; message := message e; line_num := n |}.

(** [rstrip] turns [b] into [b'], and [b'] is not empty. *)
Definition rstrips_to (b b' : string) : Prop :=
  Py.rstrip b = b' /\ b' <> EmptyString.

(** What [rstrip] leaves of the end of a written line, the closing
    bracket of the tag, a space, the message and the newline. *)
Definition closing (msg : string) : string :=
  match msg with
  | EmptyString => "]"
  | _ => "] " ++ msg
  end.

(** *** [print_veh_summary] *)







(** The number of entries of vehicle [k] ([None]: of no vehicle) that
    [p] holds of. *)
Definition count_of (k : option Z) (p : LogEntry -> bool) (entries : list LogEntry) : Z :=
  Z.of_nat (length (List.filter
                      (fun e => bool_decide (veh_id e = k) && p e) entries)).





End sim_log_parser.


(** ** The [struct] module: little-endian fixed layouts

    A Python [float] is a binary64 number; the ["f"] code stores it as
    binary32.  Both conversions go through the bit-level description of
    IEEE numbers of the standard library, which keeps no NaN payload. *)
Module Struct.

Definition byte_val (b : byte) : Z := Z.of_N (Byte.to_N b).

Definition byte_of (v : Z) : byte :=
  match Byte.of_N (Z.to_N (v mod 256)) with
  | Some b => b
  | None => "000"%byte
  end.

(** An unsigned little-endian integer. *)
Fixpoint le_uint (bs : list byte) : Z :=
  match bs with
  | [] => 0
  | b :: bs' => byte_val b + 256 * le_uint bs'
  end.

Fixpoint le_bytes (n : nat) (v : Z) : list byte :=
  match n with
  | O => []
  | S n' => byte_of v :: le_bytes n' (v / 256)
  end.

(** Packing an unsigned integer of [n] bytes: [None] is [struct.error]
    for a value out of range. *)
Definition pack_uint (n : nat) (v : Z) : option (list byte) :=
  if (0 <=? v) && (v <? 2 ^ (8 * Z.of_nat n)) then Some (le_bytes n v) else None.

Definition slice {A} (l : list A) (off len : nat) : list A :=
  firstn len (skipn off l).

(** binary32 bits to the number they denote. *)
Definition b32_decode (bits : Z) : spec_float :=
  let s := Z.testbit bits 31 in
  let e := Z.land (Z.shiftr bits 23) 255 in
  let m := Z.land bits 8388607 in
  if e =? 0 then
    match m with
    | Zpos p => S754_finite s p (-149)
    | _ => S754_zero s
    end
  else if e =? 255 then
    (if m =? 0 then S754_infinity s else S754_nan)
  else
    match m + 8388608 with
    | Zpos p => S754_finite s p (e - 150)
    | _ => S754_nan
    end.

Definition sign_bit (s : bool) : Z := if s then 2147483648 else 0.

(** A binary32 number to its bits; [None] for a number that is not one. *)
Definition b32_encode (x : spec_float) : Z :=
  match x with
  | S754_zero s => sign_bit s
  | S754_infinity s => sign_bit s + 2139095040
  | S754_nan => 2143289344
  | S754_finite s m e =>
      if Zpos m <? 8388608 then sign_bit s + Zpos m
      else sign_bit s + Z.shiftl (e + 150) 23 + (Zpos m - 8388608)
  end.

(** Unpacking ["<f"]: the binary32 value widened to a Python float. *)
Definition unpack_f32 (bits : Z) : float := SF2Prim (b32_decode bits).

(** Packing ["<f"]: rounded to binary32; [None] is the [OverflowError]
    of a finite number too large for it. *)
Definition pack_f32 (x : float) : option Z :=
  match Prim2SF x with
  | S754_finite s m e =>
      match SpecFloat.binary_round 24 128 s m e with
      | S754_infinity _ => None
      | y => Some (b32_encode y)
      end
  | y => Some (b32_encode y)
  end.

(** Python's conversion of an [int] to a [float]. *)
Definition float_of_int (z : Z) : float :=
  SF2Prim (SpecFloat.binary_normalize FloatOps.prec FloatOps.emax z 0 false).

End Struct.

(** ** tools/log_parser/log_parser.py *)
Module log_parser.
Import Struct.

Definition RECORD_SIZE : nat := 28.

Record EdgeTransitRecord : Type := mkRecord {
  timestamp : Z;
  worker_id : Z;
  fab_id : Z;
  edge_id : Z;
  veh_id : Z;
  enter_time : Z;
  exit_time : Z;
  edge_length : float;
  edge_type : Z
}.

Definition EDGE_TYPES (t : Z) : option string :=
  if t =? 0 then Some "LINEAR"
  else if t =? 1 then Some "CURVE"
  else if t =? 2 then Some "UNKNOWN"
  else None.

Definition edge_type_name (r : EdgeTransitRecord) : string :=
  match EDGE_TYPES (edge_type r) with
  | Some name => name
  | None => "TYPE_" ++ Py.str_of_int (edge_type r)
  end.

Definition transit_time (r : EdgeTransitRecord) : Z :=
  exit_time r - enter_time r.

Definition speed (r : EdgeTransitRecord) : float :=
  if transit_time r <=? 0 then 0%float
  else (edge_length r / (float_of_int (transit_time r) / 1000))%float.

(** [struct.unpack('<IBBHIIIfB3x', data)] followed by the construction
    of the record; [None] is [struct.error] for a buffer that is not 28
    bytes long. *)
Definition unpack_record (data : list byte) : option EdgeTransitRecord :=
  if (length data =? 28)%nat then
    Some {| timestamp := le_uint (slice data 0 4);
            worker_id := le_uint (slice data 4 1);
            fab_id := le_uint (slice data 5 1);
            edge_id := le_uint (slice data 6 2);
            veh_id := le_uint (slice data 8 4);
            enter_time := le_uint (slice data 12 4);
            exit_time := le_uint (slice data 16 4);
            edge_length := unpack_f32 (le_uint (slice data 20 4));
            edge_type := le_uint (slice data 24 1) |}
  else None.

(** [struct.pack('<IBBHIIIfB3x', ...)] on the fields of a record. *)
Definition pack_record (r : EdgeTransitRecord) : option (list byte) :=
  do b0 <- pack_uint 4 (timestamp r);
  do b1 <- pack_uint 1 (worker_id r);
  do b2 <- pack_uint 1 (fab_id r);
  do b3 <- pack_uint 2 (edge_id r);
  do b4 <- pack_uint 4 (veh_id r);
  do b5 <- pack_uint 4 (enter_time r);
  do b6 <- pack_uint 4 (exit_time r);
  do f <- pack_f32 (edge_length r);
  do b8 <- pack_uint 1 (edge_type r);
  Some (b0 ++ b1 ++ b2 ++ b3 ++ b4 ++ b5 ++ b6 ++ le_bytes 4 f ++ b8
        ++ ["000"%byte; "000"%byte; "000"%byte])%list.

(** Decoding a record as [parse_log_file] does and writing it back as
    [split_by_veh] does. *)
Definition reencode (data : list byte) : option (list byte) :=
  do r <- unpack_record data; pack_record r.

Definition inspect {A} (a : A) : {b : A | a = b} := exist _ a eq_refl.

(** The [while True] loop of [parse_log_file] on the bytes not yet
    read; [f.read(28)] is the next 28 bytes, or fewer at the end. *)
Equations? parse_loop (rest : list byte) (records : list EdgeTransitRecord)
  : option (list EdgeTransitRecord) by wf (length rest) lt :=
  parse_loop rest records with inspect (length (firstn RECORD_SIZE rest) <? RECORD_SIZE)%nat := {
    | exist _ true _ => Some records
    | exist _ false Hlen =>
        match unpack_record (firstn RECORD_SIZE rest) with
        | Some r => parse_loop (skipn RECORD_SIZE rest) (records ++ [r])%list
        | None => None
        end }.
Proof.
  apply Nat.ltb_ge in Hlen. rewrite length_firstn in Hlen.
  rewrite length_skipn. unfold RECORD_SIZE in *. lia.
Qed.

Definition parse_log_file (file : list byte) : option (list EdgeTransitRecord) :=
  parse_loop file [].

(** The first [n] blocks of 28 bytes of a file. *)
Fixpoint blocks (n : nat) (data : list byte) : list (list byte) :=
  match n with
  | O => []
  | S n' => firstn 28 data :: blocks n' (skipn 28 data)
  end.

(** [grouped[key(r)].append(r)] for each record, on a [defaultdict(list)]
    kept in insertion order. *)
Fixpoint group_loop (key : EdgeTransitRecord -> Z) (records : list EdgeTransitRecord)
    (grouped : list (Z * list EdgeTransitRecord)) : list (Z * list EdgeTransitRecord) :=
  match records with
  | [] => grouped
  | r :: rest =>
      group_loop key rest
        (sim_log_parser.dict_set grouped (key r)
           (default [] (sim_log_parser.dict_get grouped (key r)) ++ [r])%list)
  end.

Definition group_by_veh (records : list EdgeTransitRecord)
  : list (Z * list EdgeTransitRecord) :=
  group_loop veh_id records [].

Definition group_by_edge (records : list EdgeTransitRecord)
  : list (Z * list EdgeTransitRecord) :=
  group_loop edge_id records [].

(** The bytes written to one file of [split_by_veh]: the records of the
    vehicle packed one after the other. *)
Fixpoint pack_all (records : list EdgeTransitRecord) : option (list byte) :=
  match records with
  | [] => Some []
  | r :: rest =>
      do data <- pack_record r;
      do more <- pack_all rest;
      Some (data ++ more)%list
  end.

(** [split_by_veh]: the vehicle of each file written and its bytes, in
    the order of writing; [None] when a [struct.pack] raises (the files
    written before it are not kept). *)
Fixpoint write_groups (groups : list (Z * list EdgeTransitRecord))
  : option (list (Z * list byte)) :=
  match groups with
  | [] => Some []
  | (veh, veh_records) :: rest =>
      do data <- pack_all veh_records;
      do more <- write_groups rest;
      Some ((veh, data) :: more)
  end.

Definition split_by_veh (records : list EdgeTransitRecord)
  : option (list (Z * list byte)) :=
  write_groups (group_by_veh records).

(** The integer fields of two records are the same. *)
Definition same_integers (r r' : EdgeTransitRecord) : Prop :=
  timestamp r = timestamp r' /\ worker_id r = worker_id r'
  /\ fab_id r = fab_id r' /\ edge_id r = edge_id r' /\ veh_id r = veh_id r'
  /\ enter_time r = enter_time r' /\ exit_time r = exit_time r'
  /\ edge_type r = edge_type r'.

(** The fields are within the ranges of their unsigned types. *)
Definition in_range (r : EdgeTransitRecord) : Prop :=
  0 <= timestamp r < 2 ^ 32 /\ 0 <= worker_id r < 2 ^ 8
  /\ 0 <= fab_id r < 2 ^ 8 /\ 0 <= edge_id r < 2 ^ 16
  /\ 0 <= veh_id r < 2 ^ 32 /\ 0 <= enter_time r < 2 ^ 32
  /\ 0 <= exit_time r < 2 ^ 32 /\ 0 <= edge_type r < 2 ^ 8.

(** No key of the dict has an empty list, and no key comes twice. *)
Definition groups_ok {R} (g : list (Z * list R)) : Prop :=
  (forall k rs, sim_log_parser.dict_get g k = Some rs -> rs <> [])
  /\ List.NoDup (map fst g).

End log_parser.

(** ** scripts/parse_edge_log.py

    The record, [transit_time], [speed] and [parse_log_file] are the same
    text as in tools/log_parser/log_parser.py; only the table of edge
    type names differs. *)
Module parse_edge_log.

Definition EdgeTransitRecord : Type := log_parser.EdgeTransitRecord.

Definition EDGE_TYPES (t : Z) : option string :=
  if t =? 0 then Some "LINEAR"
  else if t =? 1 then Some "CURVE_90"
  else if t =? 2 then Some "CURVE_180"
  else if t =? 3 then Some "CURVE_CSC"
  else if t =? 4 then Some "S_CURVE"
  else if t =? 5 then Some "LEFT_CURVE"
  else if t =? 6 then Some "RIGHT_CURVE"
  else None.

Definition edge_type_name (r : EdgeTransitRecord) : string :=
  match EDGE_TYPES (log_parser.edge_type r) with
  | Some name => name
  | None => "UNKNOWN(" ++ Py.str_of_int (log_parser.edge_type r) ++ ")"
  end.

Definition transit_time (r : EdgeTransitRecord) : Z :=
  log_parser.exit_time r - log_parser.enter_time r.

Definition speed (r : EdgeTransitRecord) : float :=
  if transit_time r <=? 0 then 0%float
  else (log_parser.edge_length r / (Struct.float_of_int (transit_time r) / 1000))%float.

Definition parse_log_file (file : list byte) : option (list EdgeTransitRecord) :=
  log_parser.parse_loop file [].

End parse_edge_log.

(** ** scripts/parse_edge_transit_log.py *)
Module parse_edge_transit_log.
Import Struct.

Definition RECORD_SIZE : nat := 28.

(** One element of [RECORD_DTYPE]; [edgeLength] stays a binary32 value,
    kept here as its bits. *)
Record row : Type := mkRow {
  timestamp : Z; workerId : Z; fabId : Z; edgeId : Z; vehId : Z;
  enterTime : Z; exitTime : Z; edgeLength : Z; edgeType : Z;
  _pad1 : Z; _pad2 : Z; _pad3 : Z
}.

Definition row_of (data : list byte) : row :=
  {| timestamp := le_uint (slice data 0 4);
     workerId := le_uint (slice data 4 1);
     fabId := le_uint (slice data 5 1);
     edgeId := le_uint (slice data 6 2);
     vehId := le_uint (slice data 8 4);
     enterTime := le_uint (slice data 12 4);
     exitTime := le_uint (slice data 16 4);
     edgeLength := le_uint (slice data 20 4);
     edgeType := le_uint (slice data 24 1);
     _pad1 := le_uint (slice data 25 1);
     _pad2 := le_uint (slice data 26 1);
     _pad3 := le_uint (slice data 27 1) |}.

(** [np.fromfile(..., count=n)] and [np.memmap(..., shape=(n,))]: the
    first [n] items of the file. *)
Fixpoint items (n : nat) (data : list byte) : list row :=
  match n with
  | O => []
  | S n' => row_of (firstn RECORD_SIZE data) :: items n' (skipn RECORD_SIZE data)
  end.

Definition load_log (file : list byte) : list row :=
  let file_size := length file in
  let record_count := (file_size / RECORD_SIZE)%nat in
  if 100 * 1024 * 1024 <? Z.of_nat file_size
  then items record_count file      (* np.memmap *)
  else items record_count file.     (* np.fromfile *)

(** A value of [np.int64]: arithmetic wraps around at 64 bits. *)
Definition int64 (z : Z) : Z := (z + 2 ^ 63) mod 2 ^ 64 - 2 ^ 63.

(** The [travelTime] column of [to_dataframe] for one row:
    [data['exitTime'].astype(np.int64) - data['enterTime'].astype(np.int64)]. *)
Definition travel_time (r : row) : Z :=
  int64 (int64 (exitTime r) - int64 (enterTime r)).

(** The row and the record carry the same values: the integer fields
    are equal and the record's [edge_length] is the row's binary32. *)
Definition same_fields (w : row) (r : log_parser.EdgeTransitRecord) : Prop :=
  timestamp w = log_parser.timestamp r
  /\ workerId w = log_parser.worker_id r
  /\ fabId w = log_parser.fab_id r
  /\ edgeId w = log_parser.edge_id r
  /\ vehId w = log_parser.veh_id r
  /\ enterTime w = log_parser.enter_time r
  /\ exitTime w = log_parser.exit_time r
  /\ unpack_f32 (edgeLength w) = log_parser.edge_length r
  /\ edgeType w = log_parser.edge_type r.

End parse_edge_transit_log.

(** ** tools/log_parser/fb_parser.py *)
Module fb_parser.

Definition flag_name (flags mask : Z) (name : string) : list string :=
  if Z.land flags mask =? 0 then [] else [name].

Definition decode_checkpoint_flags (flags : Z) : string :=
  if flags =? 0 then "COMPLETED"
  else
    let names :=
      (flag_name flags 1 "LOCK_REQUEST" ++ flag_name flags 2 "LOCK_WAIT"
       ++ flag_name flags 4 "LOCK_RELEASE" ++ flag_name flags 8 "MOVE_PREPARE")%list in
    match names with
    | [] => "UNKNOWN(" ++ Py.str_of_int flags ++ ")"
    | _ => Py.join "|" names
    end.

(** The names of the bits set among the four, lowest bit first. *)
Definition set_flag_names (flags : Z) : list string :=
  ((if Z.testbit flags 0 then ["LOCK_REQUEST"] else [])
   ++ (if Z.testbit flags 1 then ["LOCK_WAIT"] else [])
   ++ (if Z.testbit flags 2 then ["LOCK_RELEASE"] else [])
   ++ (if Z.testbit flags 3 then ["MOVE_PREPARE"] else []))%list.

End fb_parser.

(** ** Concrete inputs used below *)

(** Ten lines: vehicles 1 and 2, one global line, three lines that do not
    parse (free text, a continuation line, a one-digit hour). *)
Definition ten_lines : list string :=
  [ "[00:00:01.500] [INFO ] [veh:1] [Foo.ts:10] [Nav] moving" ++ nl;
    "not a log line" ++ nl;
    "[00:00:02.000] [WARN ] [veh:2] [Lock.ts:7] [LockMgr] waiting" ++ nl;
    "[00:00:02.100] [INFO ] [global] [Sim.ts:1] [Sim] tick" ++ nl;
    "[00:00:02.500] [DEBUG] [veh:1] [Foo.ts:11] [Nav] turning" ++ nl;
    "    at stack frame" ++ nl;
    "[00:00:03.000] [ERROR] [veh:2] [Lock.ts:9] [LockMgr] timeout" ++ nl;
    "[00:00:03.500] [INFO ] [veh:1] [Foo.ts:12] [Nav] arrived" ++ nl;
    "[1:00:00.000] [INFO ] [veh:1] [Foo.ts:12] [Nav] short hour" ++ nl;
    "[00:00:04.000] [INFO ] [veh:2] [Foo.ts:12] [Nav] arrived" ++ nl ].

Definition day_two_line : string :=
  "[25:00:01.500] [INFO ] [veh:7] [Foo.ts:10] [Nav] moving" ++ nl.

Definition day_two_entry : sim_log_parser.LogEntry :=
  {| sim_log_parser.timestamp := "25:00:01.500"; sim_log_parser.level := "INFO";
     sim_log_parser.scope := "veh:7"; sim_log_parser.source := "Foo.ts:10";
     sim_log_parser.tag := "Nav"; sim_log_parser.message := "moving";
     sim_log_parser.line_num := 1 |}.

Definition long_hour_line : string :=
  "[100:00:01.500] [INFO ] [veh:7] [Foo.ts:10] [Nav] moving" ++ nl.

Definition late_line : string :=
  "[00:00:01.500] [INFO ] [veh:7] [Foo.ts:10] [Nav] moving" ++ nl.

Definition late_entry : sim_log_parser.LogEntry :=
  {| sim_log_parser.timestamp := "00:00:01.500"; sim_log_parser.level := "INFO";
     sim_log_parser.scope := "veh:7"; sim_log_parser.source := "Foo.ts:10";
     sim_log_parser.tag := "Nav"; sim_log_parser.message := "moving";
     sim_log_parser.line_num := 1 |}.


(** [--to 00:00:00] and nothing else. *)
Definition until_midnight : sim_log_parser.FilterConfig :=
  {| sim_log_parser.levels := None; sim_log_parser.veh_ids := None;
     sim_log_parser.tags := None; sim_log_parser.files := None;
     sim_log_parser.include_global := true;
     sim_log_parser.time_start := None;
     sim_log_parser.time_end := Some "00:00:00";
     sim_log_parser.search := None |}.

(** A record entered and left at the same instant. *)
Definition stalled_record : log_parser.EdgeTransitRecord :=
  {| log_parser.timestamp := 1000; log_parser.worker_id := 0; log_parser.fab_id := 0;
     log_parser.edge_id := 12; log_parser.veh_id := 7;
     log_parser.enter_time := 900; log_parser.exit_time := 900;
     log_parser.edge_length := 2.5%float; log_parser.edge_type := 0 |}.

(** timestamp 1000, worker 2, fab 1, edge 260, vehicle 5, enter 900,
    exit 1400, length 2.5, type 1, padding 0 0 0. *)
Definition sample_record : list byte :=
  map Struct.byte_of
    [ 232; 3; 0; 0;  2;  1;  4; 1;  5; 0; 0; 0;  132; 3; 0; 0;
      120; 5; 0; 0;  0; 0; 32; 64;  1;  0; 0; 0 ].

(** The same record with 255 in the first padding byte. *)
Definition padded_record : list byte :=
  map Struct.byte_of
    [ 232; 3; 0; 0;  2;  1;  4; 1;  5; 0; 0; 0;  132; 3; 0; 0;
      120; 5; 0; 0;  0; 0; 32; 64;  1;  255; 0; 0 ].

(** Every filter unset in one of the ways the loop takes for unset. *)
Definition blank_config : sim_log_parser.FilterConfig :=
  {| sim_log_parser.levels := Some ∅; sim_log_parser.veh_ids := None;
     sim_log_parser.tags := None; sim_log_parser.files := Some ∅;
     sim_log_parser.include_global := false;
     sim_log_parser.time_start := Some EmptyString;
     sim_log_parser.time_end := None;
     sim_log_parser.search := Some EmptyString |}.

(* ===================================================================== *)
(** * Part II. Properties *)
(* ===================================================================== *)

(** ** Strings *)

Lemma length_append (a b : string) :
  String.length (a ++ b) = (String.length a + String.length b)%nat.
Proof. induction a; simpl; congruence. Qed.

Lemma append_assoc (a b c : string) : (a ++ b) ++ c = a ++ (b ++ c).
Proof. induction a; simpl; congruence. Qed.

Lemma substring_prefix (w s : string) :
  String.substring 0 (String.length w) (w ++ s) = w.
Proof.
  induction w as [|c w IH]; simpl.
  - destruct s; reflexivity.
  - now rewrite IH.
Qed.

(** ** The matcher is sound for the meaning of patterns *)
Section Matcher.
Import Re.

Lemma consumed_app (w s : string) : consumed (w ++ s) s = w.
Proof.
  unfold consumed.
  replace (String.length (w ++ s) - String.length s)%nat with (String.length w).
  - apply substring_prefix.
  - rewrite length_append. lia.
Qed.

Lemma star_sound {A} (p : ascii -> bool) (s : string) (k : string -> option A) (r : A) :
  star p s k = Some r ->
  exists w s', s = w ++ s' /\ all_chars p w = true /\ k s' = Some r.
Proof.
  induction s as [|c s IH]; simpl; intros H.
  - exists EmptyString, EmptyString. auto.
  - destruct (p c) eqn:Hp.
    + destruct (star p s k) eqn:Hs.
      * injection H as ->. destruct (IH eq_refl) as (w & s' & -> & Hw & Hk).
        exists (String c w), s'. simpl. rewrite Hp. auto.
      * exists EmptyString, (String c s). auto.
    + exists EmptyString, (String c s). auto.
Qed.

(** Whenever [run] succeeds, the input splits into a word the pattern
    denotes and the rest, on which the continuation succeeded. *)
Lemma run_sound (r : regex) :
  forall s cs k m,
    run r s cs k = Some m ->
    exists w s' cs', s = w ++ s' /\ denotes r w cs cs' /\ k s' cs' = Some m.
Proof.
  induction r as [c|p|r1 IH1 r2 IH2|p|p|i r IH]; simpl; intros s cs k m H.
  - destruct s as [|d s]; [discriminate|].
    destruct (Ascii.eqb c d) eqn:E; [|discriminate].
    apply Ascii.eqb_eq in E as <-.
    exists (String c EmptyString), s, cs. auto.
  - destruct s as [|d s]; [discriminate|].
    destruct (p d) eqn:E; [|discriminate].
    exists (String d EmptyString), s, cs. split; [reflexivity|]. split; [|assumption]. eauto.
  - apply IH1 in H as (w1 & s1 & cs1 & -> & D1 & H).
    apply IH2 in H as (w2 & s2 & cs2 & -> & D2 & H).
    exists (w1 ++ w2), s2, cs2. split.
    + now rewrite append_assoc.
    + split; [|assumption]. exists w1, w2, cs1. auto.
  - apply star_sound in H as (w & s' & -> & Hw & Hk).
    exists w, s', cs. auto.
  - destruct s as [|d s]; [discriminate|].
    destruct (p d) eqn:E; [|discriminate].
    apply star_sound in H as (w & s' & -> & Hw & Hk).
    exists (String d w), s', cs. simpl. rewrite E. repeat split; auto.
  - apply IH in H as (w & s' & cs1 & -> & D & H).
    rewrite consumed_app in H.
    exists w, s', ((i, w) :: cs1). split; [reflexivity|]. split; [|assumption]. eauto.
Qed.

End Matcher.

Ltac break_all :=
  repeat match goal with
    | H : exists _, _ |- _ => destruct H
    | H : _ /\ _ |- _ => destruct H
    end.

Ltac split_digits :=
  repeat match goal with
    | H : List.Forall _ (_ :: _) |- _ => inversion H; subst; clear H
    end.

(** ** The line grammar and the clock *)
Section LineGrammar.
Import Re sim_log_parser.

(** A line that [LOG_PATTERN] matches opens with a bracketed timestamp of
    nine digits in the shape dd:dd:dd.ddd, and group 1 is that text. *)
Lemma log_pattern_shape (s : string) (m : captures) :
  re_match LOG_PATTERN s = Some m ->
  exists h1 h2 m1 m2 s1 s2 k1 k2 k3 rest,
    List.Forall (fun c => Py.isdecimal c = true) [h1; h2; m1; m2; s1; s2; k1; k2; k3]
    /\ group m 1 = timestamp_text h1 h2 m1 m2 s1 s2 k1 k2 k3
    /\ s = "[" ++ timestamp_text h1 h2 m1 m2 s1 s2 k1 k2 k3 ++ "]" ++ rest.
Proof.
  unfold re_match. intros H.
  apply run_sound in H as (w & s' & cs' & -> & D & H).
  injection H as <-.
  simpl in D. break_all. subst. simpl.
  do 10 eexists. split; [|split; reflexivity].
  repeat constructor; assumption.
Qed.

Lemma parse_line_shape (line : string) (n : Z) (e : LogEntry) :
  parse_line line n = Some e ->
  exists h1 h2 m1 m2 s1 s2 k1 k2 k3 rest,
    List.Forall (fun c => Py.isdecimal c = true) [h1; h2; m1; m2; s1; s2; k1; k2; k3]
    /\ timestamp e = timestamp_text h1 h2 m1 m2 s1 s2 k1 k2 k3
    /\ Py.strip line = "[" ++ timestamp_text h1 h2 m1 m2 s1 s2 k1 k2 k3 ++ "]" ++ rest.
Proof.
  unfold parse_line. intros H.
  destruct (re_match LOG_PATTERN (Py.strip line)) as [m|] eqn:M; [|discriminate].
  injection H as <-. simpl.
  apply log_pattern_shape in M. exact M.
Qed.

Lemma digit_cases (c : ascii) :
  Py.isdecimal c = true ->
  c = "0"%char \/ c = "1"%char \/ c = "2"%char \/ c = "3"%char \/ c = "4"%char
  \/ c = "5"%char \/ c = "6"%char \/ c = "7"%char \/ c = "8"%char \/ c = "9"%char.
Proof.
  destruct c as [[] [] [] [] [] [] [] []]; vm_compute; intros H;
    try discriminate H; tauto.
Qed.

Ltac digit_split H :=
  apply digit_cases in H;
  destruct H as [H|[H|[H|[H|[H|[H|[H|[H|[H|H]]]]]]]]]; subst.

Lemma digit_value_range (c : ascii) :
  Py.isdecimal c = true -> 0 <= Py.digit_value c <= 9.
Proof. intros H. digit_split H; vm_compute; split; discriminate. Qed.

Lemma digit_not_colon (c : ascii) : Py.isdecimal c = true -> Ascii.eqb c ":" = false.
Proof. intros H. digit_split H; reflexivity. Qed.

Lemma digit_not_dot (c : ascii) : Py.isdecimal c = true -> Ascii.eqb c "." = false.
Proof. intros H. digit_split H; reflexivity. Qed.

Lemma int_two_digits (a b : ascii) :
  Py.isdecimal a = true -> Py.isdecimal b = true ->
  Py.int (String a (String b EmptyString)) = Some (two_digits a b).
Proof. intros Ha Hb. digit_split Ha; digit_split Hb; reflexivity. Qed.

Lemma int_three_digits (a b c : ascii) :
  Py.isdecimal a = true -> Py.isdecimal b = true -> Py.isdecimal c = true ->
  Py.int (String a (String b (String c EmptyString))) = Some (three_digits a b c).
Proof.
  intros Ha Hb Hc. digit_split Ha; digit_split Hb; digit_split Hc; reflexivity.
Qed.

Lemma two_digits_range (a b : ascii) :
  Py.isdecimal a = true -> Py.isdecimal b = true -> 0 <= two_digits a b <= 99.
Proof.
  intros Ha Hb. apply digit_value_range in Ha, Hb. unfold two_digits. lia.
Qed.

Lemma three_digits_range (a b c : ascii) :
  Py.isdecimal a = true -> Py.isdecimal b = true -> Py.isdecimal c = true ->
  0 <= three_digits a b c <= 999.
Proof.
  intros Ha Hb Hc. apply digit_value_range in Ha, Hb, Hc. unfold three_digits. lia.
Qed.

(** [time_ms] on a timestamp of the grammar's shape: [split] and [int]
    never raise and the four fields enter the formula as they are. *)
Lemma time_ms_of_text (e : LogEntry) (h1 h2 m1 m2 s1 s2 k1 k2 k3 : ascii) :
  List.Forall (fun c => Py.isdecimal c = true) [h1; h2; m1; m2; s1; s2; k1; k2; k3] ->
  timestamp e = timestamp_text h1 h2 m1 m2 s1 s2 k1 k2 k3 ->
  time_ms e = Some (clock_ms (two_digits h1 h2) (two_digits m1 m2)
                             (two_digits s1 s2) (three_digits k1 k2 k3)).
Proof.
  intros D E. split_digits.
  unfold time_ms. rewrite E. unfold timestamp_text. simpl.
  rewrite !digit_not_colon by assumption. simpl.
  rewrite !int_two_digits by assumption. simpl.
  rewrite !digit_not_dot by assumption. simpl.
  rewrite int_two_digits, int_three_digits by assumption.
  reflexivity.
Qed.


Lemma parsed_hours_below_100 (line : string) (n : Z) (e : LogEntry) :
  parse_line line n = Some e ->
  exists h1 h2 tail,
    timestamp e = String h1 (String h2 (String ":" tail))
    /\ Py.isdecimal h1 = true /\ Py.isdecimal h2 = true
    /\ 0 <= two_digits h1 h2 <= 99.
Proof.
  intros P. apply parse_line_shape in P.
  destruct P as (h1 & h2 & m1 & m2 & s1 & s2 & k1 & k2 & k3 & rest' & Dg & T & _).
  split_digits.
  eexists h1, h2, _. split; [exact T|].
  repeat split; auto; apply two_digits_range; auto.
Qed.

Lemma all_chars_cons (p : ascii -> bool) (c : ascii) (w : string) :
  all_chars p (String c w) = true -> p c = true /\ all_chars p w = true.
Proof. simpl. apply andb_true_iff. Qed.

End LineGrammar.

(** ** Splitting a text log by vehicle *)
Section Dict.
Import sim_log_parser.
Context {V : Type}.
Implicit Types (d : list (Z * V)) (k : Z) (x : V).

Lemma dict_get_set_eq d k x : dict_get (dict_set d k x) k = Some x.
Proof.
  induction d as [|[k' y] d IH]; simpl.
  - now rewrite Z.eqb_refl.
  - destruct (k' =? k) eqn:E; simpl; rewrite E; auto.
Qed.

Lemma dict_get_set_ne d k k' x :
  k <> k' -> dict_get (dict_set d k x) k' = dict_get d k'.
Proof.
  intros N. induction d as [|[j y] d IH]; simpl.
  - destruct (k =? k') eqn:E; [apply Z.eqb_eq in E; contradiction|reflexivity].
  - destruct (j =? k) eqn:E; simpl.
    + apply Z.eqb_eq in E as ->.
      destruct (k =? k') eqn:E'; [apply Z.eqb_eq in E'; contradiction|reflexivity].
    + now rewrite IH.
Qed.

End Dict.

Section Counting.
Import sim_log_parser.



Lemma lines_written_eq st :
  lines_written st
  = (data_count (veh_files st)
     + match global_file st with Some g => length (written g) | None => 0 end)%nat.
Proof.
  unfold lines_written, all_sinks, data_count.
  rewrite map_app, list_sum_app. destruct (global_file st); simpl; lia.
Qed.

End Counting.

(** The loop when no file operation raises. *)
Section Quiet.
Import sim_log_parser.
Variable env : io_env.
Hypothesis Hquiet : no_io_error env.

Lemma write_global_ok st n data :
  exists st', write_global env st n data = (st', Normal)
    /\ one_more st st' GlobalSink data
    /\ total st' = total st /\ skipped st' = skipped st
    /\ global_count st' = global_count st /\ veh_counts st' = veh_counts st.
Proof.
  destruct Hquiet as (_ & Ho & Hw & _).
  unfold write_global. rewrite Hw.
  destruct (global_file st) as [g|] eqn:G.
  - eexists. split; [reflexivity|]. split; [|simpl; auto].
    split.
    + intros [v|]; unfold lines_in; simpl; [reflexivity|]. now rewrite G.
    + rewrite !lines_written_eq. simpl. rewrite G. simpl.
      rewrite length_app. simpl. lia.
  - rewrite Ho. eexists. split; [reflexivity|]. split; [|simpl; auto].
    split.
    + intros [v|]; unfold lines_in; simpl; [reflexivity|]. now rewrite G.
    + rewrite !lines_written_eq. simpl. rewrite G. simpl. lia.
Qed.




End Quiet.

(** The [finally] block when no [close] raises. *)
Section Closing.
Import sim_log_parser.
Variable env : io_env.
Hypothesis Hclose : forall p, close_raises env p = false.









End Closing.

Section SplitByVeh.
Import sim_log_parser.

Lemma split_by_veh_unfold env lines :
  split_by_veh env lines
  = let r := split_loop env init_state 1 lines in
    let r' := finally_block env (fst r) in
    (fst r', match snd r, snd r' with Normal, Normal => Normal | _, _ => Raised end).
Proof.
  unfold split_by_veh. destruct (split_loop env init_state 1 lines) as [st o].
  simpl. destruct (finally_block env st). reflexivity.
Qed.

Lemma quiet_no_io_error : no_io_error quiet.
Proof. repeat split. Qed.



(** The ten-line scenario: three files, 3 + 3 + 4 lines, the three
    unparsed lines verbatim in the global one. *)
Example split_ten_lines :
  map (fun f => (path f, length (written f)))
      (all_sinks (fst (split_by_veh quiet ten_lines)))
  = [("veh_1.txt", 3%nat); ("veh_2.txt", 3%nat); ("global.txt", 4%nat)]
  /\ lines_in (fst (split_by_veh quiet ten_lines)) GlobalSink
     = [ "not a log line" ++ nl;
         "[00:00:02.100] [INFO ] [global] [Sim.ts:1] [Sim] tick" ++ nl;
         "    at stack frame" ++ nl;
         "[1:00:00.000] [INFO ] [veh:1] [Foo.ts:12] [Nav] short hour" ++ nl ]
  /\ skipped (fst (split_by_veh quiet ten_lines)) = 3.
Proof. repeat split. Qed.




Example close_failure_statuses :
  map (fun f => (path f, status f))
      (all_sinks (fst (split_by_veh (close_fails_on "veh_1.txt") ten_lines)))
  = [("veh_1.txt", CloseRaised); ("veh_2.txt", Open); ("global.txt", Open)].
Proof. reflexivity. Qed.

End SplitByVeh.

(** ** The clock of parsed entries *)
Section Clock.
Import sim_log_parser.

(** C5.  An entry that [parse_line] produced has a timestamp H:MM:SS.mmm
    of two, two, two and three digits; [time_ms] does not raise on it and
    is ((H*60+M)*60+S)*1000+mmm, which is non-negative.  The hours enter
    with their full two-digit value, never reduced modulo 24: the result
    is at least H hours of 3,600,000 ms. *)
Theorem time_ms_of_parsed_entry (line : string) (n : Z) (e : LogEntry) :
  parse_line line n = Some e ->
  exists h1 h2 m1 m2 s1 s2 k1 k2 k3,
    timestamp e = timestamp_text h1 h2 m1 m2 s1 s2 k1 k2 k3
    /\ let H := two_digits h1 h2 in
       let M := two_digits m1 m2 in
       let S := two_digits s1 s2 in
       let mmm := three_digits k1 k2 k3 in
       time_ms e = Some (((H * 60 + M) * 60 + S) * 1000 + mmm)
       /\ 0 <= ((H * 60 + M) * 60 + S) * 1000 + mmm
       /\ 0 <= H <= 99 /\ 0 <= M <= 99 /\ 0 <= S <= 99 /\ 0 <= mmm <= 999
       /\ H * 3600000 <= ((H * 60 + M) * 60 + S) * 1000 + mmm.
Proof.
  intros P. apply parse_line_shape in P.
  destruct P as (h1 & h2 & m1 & m2 & s1 & s2 & k1 & k2 & k3 & rest & D & T & _).
  exists h1, h2, m1, m2, s1, s2, k1, k2, k3. split; [exact T|].
  cbv zeta. rewrite (time_ms_of_text e _ _ _ _ _ _ _ _ _ D T).
  split_digits.
  assert (0 <= two_digits h1 h2 <= 99) by (apply two_digits_range; assumption).
  assert (0 <= two_digits m1 m2 <= 99) by (apply two_digits_range; assumption).
  assert (0 <= two_digits s1 s2 <= 99) by (apply two_digits_range; assumption).
  assert (0 <= three_digits k1 k2 k3 <= 999) by (apply three_digits_range; assumption).
  unfold clock_ms. repeat split; try lia; auto.
Qed.

Lemma time_ms_of_parsed_entry_witness :
  parse_line day_two_line 1 = Some day_two_entry
  /\ exists h1 h2 m1 m2 s1 s2 k1 k2 k3,
    timestamp day_two_entry = timestamp_text h1 h2 m1 m2 s1 s2 k1 k2 k3
    /\ let H := two_digits h1 h2 in
       let M := two_digits m1 m2 in
       let S := two_digits s1 s2 in
       let mmm := three_digits k1 k2 k3 in
       time_ms day_two_entry = Some (((H * 60 + M) * 60 + S) * 1000 + mmm)
       /\ 0 <= ((H * 60 + M) * 60 + S) * 1000 + mmm
       /\ 0 <= H <= 99 /\ 0 <= M <= 99 /\ 0 <= S <= 99 /\ 0 <= mmm <= 999
       /\ H * 3600000 <= ((H * 60 + M) * 60 + S) * 1000 + mmm.
Proof.
  split; [reflexivity|].
  apply (time_ms_of_parsed_entry day_two_line 1 day_two_entry). reflexivity.
Defined.

(** Hour 25 is 90,000,000 ms and more, not hour 1. *)
Example time_ms_day_two : time_ms day_two_entry = Some 90001500.
Proof. reflexivity. Qed.

(** The scenario line of the specification. *)
Example parse_scenario_line :
  parse_line "[00:00:01.500] [INFO ] [veh:7] [Foo.ts:10] [Nav] moving" 1
  = Some late_entry
  /\ veh_id late_entry = Some 7 /\ time_ms late_entry = Some 1500.
Proof. repeat split. Qed.

(** C10.  A line whose hour field, the digits between the opening
    bracket and the first colon, has one digit or three and more, does
    not parse: [parse_line] returns nothing, split mode sends the line
    verbatim to the global sink and counts it as skipped.  So the hours
    of every parsed entry are two digits, 00 to 99. *)
Theorem hour_field_has_two_digits (line : string) (n : Z) (hs rest : string) :
  Py.strip line = "[" ++ hs ++ ":" ++ rest ->
  Re.all_chars Py.isdecimal hs = true ->
  (String.length hs = 1 \/ 3 <= String.length hs)%nat ->
  parse_line line n = None
  /\ route line n = (GlobalSink, line)
  /\ (forall st, skipped (fst (split_step quiet st n line)) = skipped st + 1)
  /\ (forall line' n' e,
        parse_line line' n' = Some e ->
        exists h1 h2 tail,
          timestamp e = String h1 (String h2 (String ":" tail))
          /\ Py.isdecimal h1 = true /\ Py.isdecimal h2 = true
          /\ 0 <= two_digits h1 h2 <= 99).
Proof.
  intros S D L.
  assert (P : parse_line line n = None).
  { destruct (parse_line line n) as [e|] eqn:P; [|reflexivity]. exfalso.
    apply parse_line_shape in P.
    destruct P as (h1 & h2 & m1 & m2 & s1 & s2 & k1 & k2 & k3 & rest' & Dg & _ & S').
    rewrite S in S'. unfold timestamp_text in S'. simpl in S'.
    inversion Dg as [|? ? Hh1 Dg1]; subst. inversion Dg1 as [|? ? Hh2 Dg2]; subst.
    destruct hs as [|a [|b [|c hs]]]; simpl in L, S'.
    + lia.
    + injection S' as -> <- _. discriminate Hh2.
    + lia.
    + injection S' as -> -> E _.
      apply all_chars_cons in D as [_ D]. apply all_chars_cons in D as [_ D].
      apply all_chars_cons in D as [D _]. rewrite E in D. discriminate D. }
  split; [exact P|]. split; [|split].
  - unfold route. now rewrite P.
  - intros st. unfold split_step. rewrite P.
    destruct (write_global_ok quiet quiet_no_io_error (bump_total st) n line)
      as (st' & -> & _ & _ & Sk & _).
    simpl. rewrite Sk. reflexivity.
  - exact parsed_hours_below_100.
Qed.

Lemma hour_field_has_two_digits_witness :
  Py.strip long_hour_line
  = "[" ++ "100" ++ ":" ++ "00:01.500] [INFO ] [veh:7] [Foo.ts:10] [Nav] moving"
  /\ Re.all_chars Py.isdecimal "100" = true
  /\ (String.length "100" = 1 \/ 3 <= String.length "100")%nat
  /\ parse_line long_hour_line 4 = None
  /\ route long_hour_line 4 = (GlobalSink, long_hour_line).
Proof.
  split; [reflexivity|]. split; [reflexivity|]. split; [right; simpl; lia|].
  destruct (hour_field_has_two_digits long_hour_line 4 "100"
              "00:01.500] [INFO ] [veh:7] [Foo.ts:10] [Nav] moving")
    as (P & R & _).
  - reflexivity.
  - reflexivity.
  - right. simpl. lia.
  - split; [exact P|exact R].
Defined.

End Clock.

(** ** Filters *)
Section Filters.
Import sim_log_parser.







(** The time window away from the zero end bound: both ends inclusive. *)
Lemma time_filter_window (e : LogEntry) (t start stop : Z) :
  time_ms e = Some t -> 0 <= t -> stop <> 0 ->
  time_filter (Some start) (Some stop) e = Some ((start <=? t) && (t <=? stop)).
Proof.
  intros T Ht Hs. unfold time_filter, skip_time_start, skip_time_end. simpl.
  rewrite T.
  destruct (start =? 0) eqn:E0; simpl.
  - apply Z.eqb_eq in E0 as ->.
    destruct (stop =? 0) eqn:E1; [apply Z.eqb_eq in E1; contradiction|]. simpl.
    replace (0 <=? t) with true by (symmetry; apply Z.leb_le; lia). simpl.
    rewrite Z.leb_antisym. destruct (stop <? t); reflexivity.
  - rewrite (Z.leb_antisym t start). destruct (t <? start); simpl; [reflexivity|].
    destruct (stop =? 0) eqn:E1; [apply Z.eqb_eq in E1; contradiction|]. simpl.
    rewrite Z.leb_antisym. destruct (stop <? t); reflexivity.
Qed.

(** C6, where the code departs from it.  With [--to 00:00:00] the end of
    the window is 0 ms; [if time_end_ms and ...] takes 0 for "not set",
    so an entry at 1500 ms passes a window that ends at 0 ms. *)
Theorem zero_end_bound_is_ignored :
  stream_log_file [late_line] = [late_entry]
  /\ time_bound_ms (time_end until_midnight) = Some (Some 0)
  /\ time_ms late_entry = Some 1500
  /\ time_filter None (Some 0) late_entry = Some true
  /\ filter_entries until_midnight (stream_log_file [late_line]) = Some [late_entry].
Proof. repeat split. Qed.

End Filters.

(** ** Edge-transit records *)
Section Records.
Import Struct.

Lemma byte_val_range (b : byte) : 0 <= byte_val b < 256.
Proof. unfold byte_val. pose proof (Byte.to_N_bounded b). lia. Qed.



Lemma le_uint_range (bs : list byte) : 0 <= le_uint bs < 2 ^ (8 * Z.of_nat (length bs)).
Proof.
  induction bs as [|b bs IH].
  - simpl. lia.
  - cbn [le_uint length]. pose proof (byte_val_range b) as R.
    replace (8 * Z.of_nat (S (length bs))) with (8 + 8 * Z.of_nat (length bs)) by lia.
    rewrite Z.pow_add_r by lia. change (2 ^ 8) with 256. lia.
Qed.





Example reencode_padded_record :
  log_parser.reencode padded_record = Some sample_record.
Proof. vm_compute. reflexivity. Qed.

(** The float conversion on some bit patterns: 2.5, the smallest
    subnormal, the largest finite number, infinity, minus zero. *)
Example pack_unpack_f32_samples :
  List.Forall (fun bits => pack_f32 (unpack_f32 bits) = Some bits)
    [1075838976; 1; 2139095039; 2139095040; 2147483648; 1078530011; 3212836864].
Proof. repeat constructor. Qed.

(** C3, as the code has it.  When exitTime <= enterTime the speed is the
    float 0.0, in both copies of the record class: a zero, not an absent
    value; it is not negative, not infinite and not a NaN. *)
Theorem speed_of_degenerate_transit (r : log_parser.EdgeTransitRecord) :
  log_parser.exit_time r <= log_parser.enter_time r ->
  log_parser.speed r = 0%float
  /\ parse_edge_log.speed r = 0%float
  /\ PrimFloat.ltb (log_parser.speed r) 0 = false
  /\ PrimFloat.is_infinity (log_parser.speed r) = false
  /\ PrimFloat.is_nan (log_parser.speed r) = false.
Proof.
  intros H.
  assert (E : log_parser.speed r = 0%float).
  { unfold log_parser.speed, log_parser.transit_time.
    replace (_ <=? 0) with true by (symmetry; apply Z.leb_le; lia). reflexivity. }
  rewrite E. repeat split.
  unfold parse_edge_log.speed, parse_edge_log.transit_time.
  replace (_ <=? 0) with true by (symmetry; apply Z.leb_le; lia). reflexivity.
Qed.

Lemma speed_of_degenerate_transit_witness :
  log_parser.exit_time stalled_record <= log_parser.enter_time stalled_record
  /\ log_parser.speed stalled_record = 0%float
  /\ parse_edge_log.speed stalled_record = 0%float
  /\ PrimFloat.ltb (log_parser.speed stalled_record) 0 = false
  /\ PrimFloat.is_infinity (log_parser.speed stalled_record) = false
  /\ PrimFloat.is_nan (log_parser.speed stalled_record) = false.
Proof.
  split; [vm_compute; discriminate|].
  apply (speed_of_degenerate_transit stalled_record). vm_compute; discriminate.
Defined.

(** C3, as stated, fails: the speed of a record entered and left at the
    same instant is the sentinel 0.0. *)
Lemma speed_is_zero_sentinel :
  ~ (log_parser.exit_time stalled_record <= log_parser.enter_time stalled_record ->
     log_parser.speed stalled_record <> 0%float).
Proof. intros H. apply H; [vm_compute; discriminate|reflexivity]. Qed.

Lemma unpack_record_full (data : list byte) :
  length data = 28%nat -> exists r, log_parser.unpack_record data = Some r.
Proof.
  intros L. unfold log_parser.unpack_record. rewrite L. simpl. eauto.
Qed.

Lemma div_28_step (n : nat) : (28 <= n)%nat -> (n / 28 = S ((n - 28) / 28))%nat.
Proof.
  intros H. replace n with ((n - 28) + 1 * 28)%nat at 1 by lia.
  rewrite Nat.div_add by lia. lia.
Qed.

(** The loop returns, and what it appends is the decoding of the full
    blocks of what was left to read. *)
Lemma parse_loop_spec (rest : list byte) (records : list log_parser.EdgeTransitRecord) :
  exists out,
    log_parser.parse_loop rest records = Some (records ++ out)%list
    /\ List.Forall2 (fun r block => log_parser.unpack_record block = Some r)
                    out (log_parser.blocks (length rest / 28) rest).
Proof.
  funelim (log_parser.parse_loop rest records).
  - exists []. rewrite app_nil_r. split; [reflexivity|]. clear H Heqcall.
    apply Nat.ltb_lt in e. rewrite length_firstn in e.
    unfold log_parser.RECORD_SIZE in e.
    rewrite Nat.div_small by lia. constructor.
  - clear H0 Heqcall. apply Nat.ltb_ge in Hlen. rewrite length_firstn in Hlen.
    unfold log_parser.RECORD_SIZE in *.
    destruct (unpack_record_full (firstn 28 rest)) as [r Hr].
    { rewrite length_firstn. lia. }
    rewrite Hr. destruct (H r) as (out & E & F).
    exists (r :: out). split.
    + rewrite E. now rewrite <- app_assoc.
    + rewrite div_28_step by lia. simpl log_parser.blocks. constructor; [exact Hr|].
      rewrite length_skipn in F. exact F.
Qed.

Lemma blocks_length (n : nat) (data : list byte) :
  length (log_parser.blocks n data) = n.
Proof. revert data. induction n; simpl; intros; [reflexivity|]. now rewrite IHn. Qed.

Lemma items_length (n : nat) (data : list byte) :
  length (parse_edge_transit_log.items n data) = n.
Proof. revert data. induction n; simpl; intros; [reflexivity|]. now rewrite IHn. Qed.

(** C7.  On a file of L bytes the reading loop returns without raising,
    in both copies of [parse_log_file], with floor(L/28) records, the
    decodings of the full 28-byte blocks in order: the bytes after the
    last full block are dropped.  [load_log] has floor(L/28) rows too. *)
Theorem decoder_yields_full_records (file : list byte) :
  (exists records,
      log_parser.parse_log_file file = Some records
      /\ parse_edge_log.parse_log_file file = Some records
      /\ length records = (length file / 28)%nat
      /\ List.Forall2 (fun r block => log_parser.unpack_record block = Some r)
                      records (log_parser.blocks (length file / 28) file))
  /\ length (parse_edge_transit_log.load_log file) = (length file / 28)%nat.
Proof.
  split.
  - destruct (parse_loop_spec file []) as (out & E & F).
    exists out. unfold log_parser.parse_log_file, parse_edge_log.parse_log_file.
    rewrite E. repeat split; [|exact F].
    apply List.Forall2_length in F. rewrite F. apply blocks_length.
  - unfold parse_edge_transit_log.load_log.
    destruct (_ <? _); apply items_length.
Qed.

(** Two records and 27 bytes of a third: two records. *)
Example parse_truncated_file :
  option_map (@length _)
    (log_parser.parse_log_file (sample_record ++ padded_record ++ firstn 27 sample_record))
  = Some 2%nat.
Proof. vm_compute. reflexivity. Qed.

End Records.

(** ** Checkpoint flags *)
Section Flags.
Import fb_parser.

Lemma land_pow2_testbit (a : Z) (k : Z) :
  0 <= k -> (Z.land a (2 ^ k) =? 0) = negb (Z.testbit a k).
Proof.
  intros Hk. destruct (Z.testbit a k) eqn:T; simpl.
  - apply Z.eqb_neq. intros E.
    assert (B : Z.testbit (Z.land a (2 ^ k)) k = true).
    { rewrite Z.land_spec, T, Z.pow2_bits_true by assumption. reflexivity. }
    rewrite E, Z.bits_0 in B. discriminate.
  - apply Z.eqb_eq. apply Z.bits_inj'. intros n Hn.
    rewrite Z.land_spec, Z.bits_0.
    destruct (Z.eq_dec k n) as [<-|Ne].
    + now rewrite T.
    + rewrite (Z.pow2_bits_false k n) by assumption. apply andb_false_r.
Qed.

Lemma flag_name_testbit (flags k : Z) (name : string) :
  0 <= k ->
  flag_name flags (2 ^ k) name = if Z.testbit flags k then [name] else [].
Proof.
  intros Hk. unfold flag_name. rewrite land_pow2_testbit by assumption.
  now destruct (Z.testbit flags k).
Qed.

(** C8, as the code has it.  0 decodes to "COMPLETED" and 0x05 to
    "LOCK_REQUEST|LOCK_RELEASE"; a nonzero value decodes to the names of
    its set bits among the four, lowest first, joined by "|", when it has
    any, and to "UNKNOWN(<value>)" when it has none. *)
Theorem decode_checkpoint_flags_labels (flags : Z) :
  decode_checkpoint_flags 0 = "COMPLETED"
  /\ decode_checkpoint_flags 5 = "LOCK_REQUEST|LOCK_RELEASE"
  /\ decode_checkpoint_flags flags
     = if flags =? 0 then "COMPLETED"
       else match set_flag_names flags with
            | [] => "UNKNOWN(" ++ Py.str_of_int flags ++ ")"
            | names => Py.join "|" names
            end.
Proof.
  split; [reflexivity|]. split; [reflexivity|].
  unfold decode_checkpoint_flags. destruct (flags =? 0); [reflexivity|].
  rewrite (flag_name_testbit flags 0 "LOCK_REQUEST" ltac:(lia)
           : flag_name flags 1 _ = _).
  rewrite (flag_name_testbit flags 1 "LOCK_WAIT" ltac:(lia)
           : flag_name flags 2 _ = _).
  rewrite (flag_name_testbit flags 2 "LOCK_RELEASE" ltac:(lia)
           : flag_name flags 4 _ = _).
  rewrite (flag_name_testbit flags 3 "MOVE_PREPARE" ltac:(lia)
           : flag_name flags 8 _ = _).
  fold (set_flag_names flags). destruct (set_flag_names flags); reflexivity.
Qed.

(** C8, as stated, fails: 16 is nonzero and has none of the four bits,
    so the join of its names is empty, and the code answers
    "UNKNOWN(16)". *)
Lemma unknown_flags_are_not_joined :
  16 <> 0
  /\ decode_checkpoint_flags 16 <> Py.join "|" (set_flag_names 16).
Proof. split; [discriminate|]. vm_compute. discriminate. Qed.

Example decode_checkpoint_flags_16 : decode_checkpoint_flags 16 = "UNKNOWN(16)".
Proof. reflexivity. Qed.

End Flags.

(* ===================================================================== *)
(** * Part III. Further properties of the code *)
(* ===================================================================== *)

(** ** The entries of a log file *)
Section Streaming.
Import Re sim_log_parser.

Lemma parse_line_line_num line n e : parse_line line n = Some e -> line_num e = n.
Proof.
  unfold parse_line. destruct (re_match _ _); [|discriminate].
  intros H. injection H as <-. reflexivity.
Qed.

Lemma stream_from_in lines : forall n e,
  List.In e (stream_from n lines)
  <-> exists i line, nth_error lines i = Some line
                     /\ parse_line line (n + Z.of_nat i) = Some e.
Proof.
  induction lines as [|l rest IH]; intros n e; simpl.
  - split; [tauto|]. intros (i & line & H & _). destruct i; discriminate.
  - assert (Tail : List.In e (stream_from (n + 1) rest)
                   <-> exists i line, nth_error rest i = Some line
                        /\ parse_line line (n + Z.of_nat (S i)) = Some e).
    { rewrite IH. split; intros (i & line & H & P); exists i, line; split; auto.
      - now replace (n + Z.of_nat (S i)) with (n + 1 + Z.of_nat i) by lia.
      - now replace (n + 1 + Z.of_nat i) with (n + Z.of_nat (S i)) by lia. }
    destruct (parse_line l n) as [e0|] eqn:P0.
    + simpl. rewrite Tail. split.
      * intros [<-|(i & line & H & P)].
        -- exists 0%nat, l. simpl. now rewrite Z.add_0_r.
        -- exists (S i), line. auto.
      * intros (i & line & H & P). destruct i as [|i]; simpl in H.
        -- injection H as <-. rewrite Z.add_0_r in P. left. congruence.
        -- right. eauto.
    + rewrite Tail. split.
      * intros (i & line & H & P). exists (S i), line. auto.
      * intros (i & line & H & P). destruct i as [|i]; simpl in H.
        -- injection H as <-. rewrite Z.add_0_r in P. congruence.
        -- eauto.
Qed.

Lemma stream_from_line_nums lines : forall n,
  List.Forall (fun e => n <= line_num e < n + Z.of_nat (length lines)) (stream_from n lines)
  /\ StronglySorted Z.lt (map line_num (stream_from n lines)).
Proof.
  induction lines as [|l rest IH]; intros n; simpl stream_from.
  - split; constructor.
  - destruct (IH (n + 1)) as [B Srt].
    assert (B' : List.Forall (fun e => n + 1 <= line_num e
                                       /\ n <= line_num e < n + Z.of_nat (length (l :: rest)))
                   (stream_from (n + 1) rest)).
    { eapply List.Forall_impl; [|exact B]. simpl length. intros a Ha. cbv beta in *. lia. }
    destruct (parse_line l n) as [e0|] eqn:P0.
    + apply parse_line_line_num in P0. split.
      * constructor; [simpl length; lia|].
        eapply List.Forall_impl; [|exact B']. intros a Ha. cbv beta in *. tauto.
      * simpl map. constructor; [exact Srt|]. rewrite List.Forall_map.
        eapply List.Forall_impl; [|exact B']. intros a Ha. cbv beta in *. lia.
    + split; [|exact Srt]. eapply List.Forall_impl; [|exact B']. intros a Ha. cbv beta in *. tauto.
Qed.

(** X1.  [stream_log_file] yields exactly the entries that [parse_line]
    returns for the lines of the file, each built with the 1-based number
    of its line; the line numbers of the entries yielded are strictly
    increasing and lie between 1 and the number of lines. *)
Theorem stream_log_file_entries (lines : list string) :
  (forall e, List.In e (stream_log_file lines)
             <-> exists i line, nth_error lines i = Some line
                                /\ parse_line line (Z.of_nat i + 1) = Some e)
  /\ StronglySorted Z.lt (map line_num (stream_log_file lines))
  /\ List.Forall (fun e => 1 <= line_num e <= Z.of_nat (length lines))
                 (stream_log_file lines).
Proof.
  unfold stream_log_file. split; [|split].
  - intros e. rewrite stream_from_in.
    split; intros (i & line & H & P); exists i, line; split; auto.
    + now rewrite Z.add_comm.
    + now rewrite Z.add_comm.
  - apply stream_from_line_nums.
  - eapply List.Forall_impl; [|apply stream_from_line_nums]. intros a Ha. cbv beta in *. lia.
Qed.

End Streaming.

(** ** The filter on a log file, and the export of one vehicle *)
Section Exports.
Import Re sim_log_parser.






(** X2.  A configuration whose level, tag and file sets are [None] or
    empty, whose vehicle set is [None], and whose two time bounds and
    search text are [None] or empty lets every entry through:
    [filter_entries] raises nothing and returns its input, whatever
    [include_global] says. *)
Theorem unset_filters_pass_everything (cfg : FilterConfig) (entries : list LogEntry) :
  truthy_set (levels cfg) = false ->
  veh_ids cfg = None ->
  truthy_set (tags cfg) = false ->
  truthy_set (files cfg) = false ->
  truthy_str (time_start cfg) = false ->
  truthy_str (time_end cfg) = false ->
  truthy_str (search cfg) = false ->
  filter_entries cfg entries = Some entries.
Proof.
  intros L V T F S E Q. unfold filter_entries, time_bound_ms. rewrite S, E.
  induction entries as [|e rest IH]; simpl; [reflexivity|].
  unfold passes, skip_level, skip_veh, skip_tag, skip_file, skip_time_start,
    skip_time_end, skip_search.
  rewrite L, V, T, F, Q. simpl. now rewrite IH.
Qed.

Lemma unset_filters_pass_everything_witness :
  truthy_set (levels blank_config) = false
  /\ veh_ids blank_config = None
  /\ truthy_set (tags blank_config) = false
  /\ truthy_set (files blank_config) = false
  /\ truthy_str (time_start blank_config) = false
  /\ truthy_str (time_end blank_config) = false
  /\ truthy_str (search blank_config) = false
  /\ filter_entries blank_config [late_entry; day_two_entry]
     = Some [late_entry; day_two_entry].
Proof.
  repeat (split; [reflexivity|]).
  apply (unset_filters_pass_everything blank_config [late_entry; day_two_entry]);
    reflexivity.
Defined.






End Exports.

(** ** The counters and the sinks of the split *)
Section Summary.
Import Re sim_log_parser.

Section QuietCounters.
Variable env : io_env.
Hypothesis Hquiet : no_io_error env.



End QuietCounters.




(** ** Sinks are opened on first use *)

Lemma dict_get_none_keys {V} (d : list (Z * V)) (k : Z) :
  dict_get d k = None -> ~ List.In k (map fst d).
Proof.
  induction d as [|[j y] d IH]; simpl; [tauto|].
  destruct (j =? k) eqn:E; [discriminate|]. apply Z.eqb_neq in E.
  intros H [F|F]; [contradiction|]. now apply IH.
Qed.

Lemma dict_set_keys {V} (d : list (Z * V)) (k : Z) (x : V) :
  map fst (dict_set d k x)
  = match dict_get d k with
    | Some _ => map fst d
    | None => (map fst d ++ [k])%list
    end.
Proof.
  induction d as [|[j y] d IH]; simpl; [reflexivity|].
  destruct (j =? k) eqn:E; simpl; [reflexivity|].
  rewrite IH. now destruct (dict_get d k).
Qed.

Lemma dict_set_nodup {V} (d : list (Z * V)) (k : Z) (x : V) :
  List.NoDup (map fst d) -> List.NoDup (map fst (dict_set d k x)).
Proof.
  intros N. rewrite dict_set_keys. destruct (dict_get d k) eqn:G; [exact N|].
  apply List.NoDup_app; [exact N|repeat constructor; simpl; tauto|].
  intros a Ha [E|[]]. subst a. exact (dict_get_none_keys d k G Ha).
Qed.


Section QuietSinks.
Variable env : io_env.
Hypothesis Hquiet : no_io_error env.








End QuietSinks.



End Summary.

(** ** The split under I/O errors *)
Section Failures.
Import Re sim_log_parser.

Section AnyEnv.
Variable env : io_env.

Lemma write_global_any st n data k :
  lines_in (fst (write_global env st n data)) k
  = (lines_in st k ++ added (snd (write_global env st n data)) GlobalSink k data)%list.
Proof.
  unfold write_global, lines_in.
  destruct (global_file st) as [g|] eqn:G.
  - destruct (write_raises env n); destruct k; simpl; rewrite ?G, ?app_nil_r; reflexivity.
  - destruct (open_raises env n); [destruct k; simpl; rewrite ?G, ?app_nil_r; reflexivity|].
    destruct (write_raises env n); destruct k; simpl; rewrite ?G, ?app_nil_r; reflexivity.
Qed.

Lemma write_veh_any st n v data k :
  lines_in (fst (write_veh env st n v data)) k
  = (lines_in st k ++ added (snd (write_veh env st n v data)) (VehSink v) k data)%list.
Proof.
  unfold write_veh, lines_in.
  destruct (dict_get (veh_files st) v) as [f|] eqn:G.
  - destruct (write_raises env n); destruct k as [w|]; simpl;
      rewrite ?app_nil_r; try reflexivity.
    destruct (v =? w) eqn:E.
    + apply Z.eqb_eq in E as <-. now rewrite dict_get_set_eq, G.
    + apply Z.eqb_neq in E. rewrite dict_get_set_ne by assumption. now rewrite app_nil_r.
  - destruct (open_raises env n);
      [destruct k; simpl; rewrite ?app_nil_r; reflexivity|].
    destruct (write_raises env n); destruct k as [w|]; simpl;
      rewrite ?app_nil_r; try reflexivity.
    + destruct (Z.eq_dec v w) as [<-|Ne].
      * now rewrite dict_get_set_eq, G.
      * now rewrite dict_get_set_ne.
    + destruct (v =? w) eqn:E.
      * apply Z.eqb_eq in E as <-. now rewrite dict_get_set_eq, G.
      * apply Z.eqb_neq in E. rewrite dict_get_set_ne by assumption. now rewrite app_nil_r.
Qed.

Lemma split_step_any st n line k :
  lines_in (fst (split_step env st n line)) k
  = (lines_in st k
     ++ added (snd (split_step env st n line)) (fst (route line n)) k (snd (route line n)))%list.
Proof.
  unfold split_step, route.
  destruct (parse_line line n) as [e|]; [destruct (veh_id e) as [v|]|].
  - pose proof (write_veh_any (bump_total st) n v (to_str e ++ nl) k) as H.
    destruct (write_veh env (bump_total st) n v (to_str e ++ nl)) as [st' []]; exact H.
  - pose proof (write_global_any (bump_total st) n (to_str e ++ nl) k) as H.
    destruct (write_global env (bump_total st) n (to_str e ++ nl)) as [st' []]; exact H.
  - pose proof (write_global_any (bump_total st) n line k) as H.
    destruct (write_global env (bump_total st) n line) as [st' []]; exact H.
Qed.

(** The loop stops at the first line whose handling raises; the lines
    before it are written in full and nothing of the later ones is. *)
Lemma split_loop_any lines : forall st n,
  exists m, (m <= length lines)%nat
    /\ (forall k, lines_in (fst (split_loop env st n lines)) k
                  = (lines_in st k ++ sent_to k n (firstn m lines))%list)
    /\ (snd (split_loop env st n lines) = Normal <-> m = length lines).
Proof.
  induction lines as [|line rest IH]; intros st n.
  - exists 0%nat. simpl. repeat split; auto. intros k. now rewrite app_nil_r.
  - simpl split_loop. destruct (read_raises env n).
    + exists 0%nat. simpl. split; [lia|]. split.
      * intros k. now rewrite app_nil_r.
      * split; discriminate.
    + pose proof (split_step_any st n line) as S.
      destruct (split_step env st n line) as [st1 [|]]; simpl in S.
      * destruct (IH st1 (n + 1)) as (m & Hm & L & O).
        exists (Datatypes.S m). simpl. split; [lia|]. split.
        -- intros k. rewrite L, S.
           destruct (sink_key_eqb (fst (route line n)) k); [|now rewrite app_nil_r].
           now rewrite <- app_assoc.
        -- rewrite O. split; intros H; lia.
      * exists 0%nat. simpl. split; [lia|]. split.
        -- intros k. rewrite S. reflexivity.
        -- split; discriminate.
Qed.

Lemma close_all_written d k :
  option_map written (dict_get (fst (close_all env d)) k) = option_map written (dict_get d k).
Proof.
  induction d as [|[v f] d IH]; simpl; [reflexivity|].
  unfold close. destruct (close_raises env (path f)); simpl.
  - destruct (v =? k); reflexivity.
  - destruct (close_all env d) as [d' o]. simpl in *.
    destruct (v =? k); [reflexivity|exact IH].
Qed.

Lemma finally_any_keeps_lines st k :
  lines_in (fst (finally_block env st)) k = lines_in st k.
Proof.
  unfold finally_block, lines_in.
  pose proof (fun v => close_all_written (veh_files st) v) as C.
  assert (V : forall d v,
             option_map written (dict_get d v)
             = option_map written (dict_get (veh_files st) v) ->
             match dict_get d v with Some f => written f | None => [] end
             = match dict_get (veh_files st) v with Some f => written f | None => [] end).
  { intros d v H. destruct (dict_get d v), (dict_get (veh_files st) v);
      simpl in H; congruence. }
  destruct (close_all env (veh_files st)) as [d [|]]; simpl in C.
  - destruct (global_file st) as [g|] eqn:G.
    + unfold close. destruct (close_raises env (path g)); destruct k as [v|]; simpl;
        rewrite ?G; auto.
    + destruct k as [v|]; simpl; rewrite ?G; auto.
  - destruct k as [v|]; simpl; auto.
Qed.

End AnyEnv.

(** X7.  Whatever reads, opens, writes and closes fail, what the sinks
    hold after [split_by_veh] is what a prefix of the input sends to
    them: for some [m] up to the number of lines every sink holds the
    texts of the first [m] lines that go to it, and when [m] is not all of
    the lines the pass ended with an exception. *)
Theorem split_stops_at_first_failure (env : io_env) (lines : list string) :
  exists m, (m <= length lines)%nat
    /\ (forall k, lines_in (fst (split_by_veh env lines)) k = sent_to k 1 (firstn m lines))
    /\ (m < length lines -> snd (split_by_veh env lines) = Raised)%nat.
Proof.
  destruct (split_loop_any env lines init_state 1) as (m & Hm & L & O).
  exists m. split; [exact Hm|]. rewrite split_by_veh_unfold. cbv zeta. simpl fst. simpl snd.
  split.
  - intros k. rewrite finally_any_keeps_lines, L. unfold lines_in. destruct k; reflexivity.
  - intros Lt. destruct (snd (split_loop env init_state 1 lines)); [|reflexivity].
    assert (m = length lines) by now apply O. lia.
Qed.

Lemma split_stops_at_first_failure_witness :
  exists m, (m <= length ten_lines)%nat
    /\ (forall k, lines_in (fst (split_by_veh quiet ten_lines)) k
                  = sent_to k 1 (firstn m ten_lines))
    /\ (m < length ten_lines -> snd (split_by_veh quiet ten_lines) = Raised)%nat.
Proof. exact (split_stops_at_first_failure quiet ten_lines). Defined.

End Failures.

(** ** The names of the output files *)
Section Paths.
Import Re sim_log_parser.

Lemma append_empty_r (a : string) : a ++ EmptyString = a.
Proof. induction a; simpl; congruence. Qed.

Lemma dec_val_app (a b : string) (acc : Z) :
  dec_val (a ++ b) acc = dec_val b (dec_val a acc).
Proof. revert acc. induction a as [|c a IH]; simpl; intros; [reflexivity|apply IH]. Qed.

Lemma digit_char (d : Z) :
  0 <= d <= 9 ->
  Py.digit_value (ascii_of_N (Z.to_N (48 + d))) = d
  /\ Ascii.eqb (ascii_of_N (Z.to_N (48 + d))) "-" = false.
Proof.
  intros H.
  assert (C : d = 0 \/ d = 1 \/ d = 2 \/ d = 3 \/ d = 4 \/ d = 5 \/ d = 6 \/ d = 7
              \/ d = 8 \/ d = 9) by lia.
  destruct C as [->|[->|[->|[->|[->|[->|[->|[->|[->| ->]]]]]]]]]; split; reflexivity.
Qed.

Lemma pos_digits_spec (fuel : nat) : forall n acc,
  0 <= n < 10 ^ Z.of_nat (S fuel) ->
  exists c w,
    Py.pos_digits (S fuel) n acc = String c w ++ acc
    /\ Ascii.eqb c "-" = false
    /\ forall a, dec_val (String c w) a = a * 10 ^ Z.of_nat (String.length (String c w)) + n.
Proof.
  induction fuel as [|fuel IH]; intros n acc H;
    remember (ascii_of_N (Z.to_N (48 + n mod 10))) as d eqn:Hd;
    assert (D : 0 <= n mod 10 <= 9) by (pose proof (Z.mod_pos_bound n 10); lia);
    destruct (digit_char _ D) as [Dv Dm]; rewrite <- Hd in Dv, Dm.
  - change (10 ^ Z.of_nat 1) with 10 in H.
    exists d, EmptyString. cbn [Py.pos_digits]. rewrite <- Hd.
    replace (n <? 10) with true by (symmetry; apply Z.ltb_lt; lia).
    split; [reflexivity|]. split; [exact Dm|].
    intros a. simpl. rewrite Dv, Z.mod_small by lia. lia.
  - cbn [Py.pos_digits]. rewrite <- Hd. cbn zeta.
    destruct (n <? 10) eqn:E.
    + apply Z.ltb_lt in E. exists d, EmptyString.
      split; [reflexivity|]. split; [exact Dm|].
      intros a. simpl. rewrite Dv, Z.mod_small by lia. lia.
    + apply Z.ltb_ge in E.
      assert (R : 0 <= n / 10 < 10 ^ Z.of_nat (S fuel)).
      { split; [apply Z.div_pos; lia|]. apply Z.div_lt_upper_bound; [lia|].
        rewrite (Nat2Z.inj_succ (S fuel)), Z.pow_succ_r in H by lia. lia. }
      destruct (IH (n / 10) (String d acc) R) as (c & w & P & M & V).
      exists c, (w ++ String d EmptyString).
      split; [|split; [exact M|]].
      * change (Py.pos_digits (S fuel) (n / 10) (String d acc) = String c (w ++ String d EmptyString) ++ acc).
        rewrite P. simpl. f_equal. now rewrite append_assoc.
      * intros a.
        change (String c (w ++ String d EmptyString))
          with (String c w ++ String d EmptyString).
        rewrite dec_val_app, V. cbn [dec_val]. rewrite Dv.
        rewrite length_append.
        change (String.length (String d EmptyString)) with 1%nat.
        rewrite Nat2Z.inj_add, Z.pow_add_r by lia. change (10 ^ Z.of_nat 1) with 10.
        pose proof (Z.div_mod n 10 ltac:(lia)). lia.
Qed.

Lemma fuel_is_enough (n : Z) : 0 <= n -> n < 10 ^ Z.of_nat (S (Z.to_nat (Z.log2 n))).
Proof.
  intros H. rewrite Nat2Z.inj_succ, Z2Nat.id by apply Z.log2_nonneg.
  destruct (Z.eq_dec n 0) as [->|Ne]; [reflexivity|].
  pose proof (Z.log2_spec n ltac:(lia)) as [_ U].
  eapply Z.lt_le_trans; [exact U|].
  apply Z.pow_le_mono_l. pose proof (Z.log2_nonneg n). lia.
Qed.

(** [str] of an integer can be read back: no two integers print alike. *)
Lemma unstr_str_of_int (n : Z) : unstr (Py.str_of_int n) = n.
Proof.
  unfold Py.str_of_int.
  replace (Z.to_nat (Z.log2 (- n)) + 1)%nat with (S (Z.to_nat (Z.log2 (- n)))) by lia.
  replace (Z.to_nat (Z.log2 n) + 1)%nat with (S (Z.to_nat (Z.log2 n))) by lia.
  destruct (n <? 0) eqn:E.
  - apply Z.ltb_lt in E.
    assert (N : 0 <= - n) by lia.
    destruct (pos_digits_spec _ (- n) EmptyString (conj N (fuel_is_enough (- n) N)))
      as (c & w & P & M & V).
    rewrite P. cbn [unstr]. change (Ascii.eqb "-" "-") with true. cbn iota.
    rewrite append_empty_r. rewrite V. lia.
  - apply Z.ltb_ge in E.
    destruct (pos_digits_spec _ n EmptyString (conj E (fuel_is_enough n E)))
      as (c & w & P & M & V).
    rewrite P. rewrite append_empty_r. cbn [unstr]. rewrite M. rewrite V. lia.
Qed.

Lemma append_same_length (a b c d : string) :
  String.length a = String.length b -> a ++ c = b ++ d -> a = b.
Proof.
  revert b. induction a as [|x a IH]; intros [|y b] L E; simpl in *;
    try discriminate; [reflexivity|].
  injection E as -> E. injection L as L. f_equal. now apply IH.
Qed.

Lemma append_cancel_r (a b c : string) : a ++ c = b ++ c -> a = b.
Proof.
  intros E. apply (append_same_length a b c c); [|exact E].
  apply (f_equal String.length) in E. rewrite !length_append in E. lia.
Qed.

(** X8.  Two vehicle ids with the same output file name are the same
    id, and no vehicle file has the name of the global file. *)
Theorem veh_paths_are_distinct :
  (forall v w, veh_path v = veh_path w -> v = w)
  /\ (forall v, veh_path v <> global_path).
Proof.
  split.
  - intros v w E. unfold veh_path in E. simpl in E. injection E as E.
    apply append_cancel_r in E.
    rewrite <- (unstr_str_of_int v), <- (unstr_str_of_int w). now rewrite E.
  - intros v E. unfold veh_path, global_path in E. simpl in E. discriminate E.
Qed.

Lemma veh_paths_are_distinct_witness :
  veh_path 7 <> veh_path 8 /\ veh_path 7 <> global_path.
Proof.
  split.
  - intros H. apply (proj1 veh_paths_are_distinct) in H. discriminate H.
  - exact (proj2 veh_paths_are_distinct 7).
Defined.

End Paths.

(** ** Greedy repetition *)
Section Greedy.
Import Re sim_log_parser.

(** The first thing a greedy repetition tries is the longest run; when
    the continuation accepts what follows, that is the answer. *)
Lemma star_longest {A} (p : ascii -> bool) (w s : string) (k : string -> option A) (r : A) :
  all_chars p w = true -> stops p s = true -> k s = Some r ->
  star p (w ++ s) k = Some r.
Proof.
  intros W S K. induction w as [|c w IH]; simpl in *.
  - destruct s as [|d s]; simpl in *; [exact K|].
    now rewrite (negb_true_iff _) in S; rewrite S.
  - apply andb_true_iff in W as [Pc W]. rewrite Pc, (IH W). reflexivity.
Qed.

Lemma run_lit_ok c s cs k : run (Lit c) (String c s) cs k = k s cs.
Proof. simpl. now rewrite Ascii.eqb_refl. Qed.

Lemma run_cls_ok p c s cs k : p c = true -> run (Cls p) (String c s) cs k = k s cs.
Proof. intros H. simpl. now rewrite H. Qed.

Lemma run_star_ok p w s cs k m :
  all_chars p w = true -> stops p s = true -> k s cs = Some m ->
  run (Star p) (w ++ s) cs k = Some m.
Proof. intros. simpl. now apply star_longest. Qed.

Lemma run_plus_ok p w s cs k m :
  w <> EmptyString -> all_chars p w = true -> stops p s = true -> k s cs = Some m ->
  run (Plus p) (w ++ s) cs k = Some m.
Proof.
  intros N W S K. destruct w as [|c w]; [contradiction|]. simpl in *.
  apply andb_true_iff in W as [Pc W]. rewrite Pc. now apply star_longest.
Qed.

Lemma run_group_plus_ok i p w s cs k m :
  w <> EmptyString -> all_chars p w = true -> stops p s = true ->
  k s ((i, w) :: cs) = Some m ->
  run (Group i (Plus p)) (w ++ s) cs k = Some m.
Proof.
  intros N W S K.
  change (run (Plus p) (w ++ s) cs (fun s' cs' => k s' ((i, consumed (w ++ s) s') :: cs'))
          = Some m).
  apply run_plus_ok; auto. now rewrite consumed_app.
Qed.

(** A repetition whose continuation always answers takes the longest run. *)
Lemma star_total {A} (p : ascii -> bool) (s : string) (f : string -> A) :
  star p s (fun x => Some (f x)) = Some (f (after_span p s)).
Proof.
  induction s as [|c s IH]; simpl; [reflexivity|].
  destruct (p c); [now rewrite IH|reflexivity].
Qed.

Lemma span_split (p : ascii -> bool) (s : string) : s = span_of p s ++ after_span p s.
Proof.
  induction s as [|c s IH]; simpl; [reflexivity|].
  destruct (p c); simpl; [now rewrite <- IH|reflexivity].
Qed.

Lemma span_all (p : ascii -> bool) (s : string) : all_chars p (span_of p s) = true.
Proof.
  induction s as [|c s IH]; simpl; [reflexivity|].
  destruct (p c) eqn:E; simpl; [now rewrite E|reflexivity].
Qed.

Lemma after_span_stops (p : ascii -> bool) (s : string) : stops p (after_span p s) = true.
Proof.
  induction s as [|c s IH]; simpl; [reflexivity|].
  destruct (p c) eqn:E; simpl; [exact IH|now rewrite E].
Qed.

Lemma lstrip_after_span (s : string) : Py.lstrip s = after_span Py.isspace s.
Proof. induction s as [|c s IH]; simpl; [reflexivity|]. now rewrite IH. Qed.

Lemma star_ext {A} (p : ascii -> bool) (s : string) (k1 k2 : string -> option A) :
  (forall x, k1 x = k2 x) -> star p s k1 = star p s k2.
Proof.
  intros E. induction s as [|c s IH]; simpl; [apply E|].
  destruct (p c); [|apply E]. rewrite IH. now rewrite E.
Qed.

Lemma consumed_span (p : ascii -> bool) (s : string) :
  consumed s (after_span p s) = span_of p s.
Proof. rewrite (span_split p s) at 1. apply consumed_app. Qed.

(** The end of [LOG_PATTERN], spaces and then the message group, with
    nothing after it: the spaces are skipped and the message is
    everything up to a newline. *)
Lemma run_message (s : string) (cs : captures) :
  run (Seq (Star Py.isspace) (Group 6 (Star dot))) s cs (fun _ cs' => Some cs')
  = Some ((6%nat, span_of dot (Py.lstrip s)) :: cs).
Proof.
  cbn [run].
  rewrite (star_ext Py.isspace s _
             (fun s' => Some ((6%nat, span_of dot s') :: cs))).
  - rewrite star_total. now rewrite lstrip_after_span.
  - intros x. rewrite star_total. now rewrite consumed_span.
Qed.

End Greedy.

(** ** Parsing what was written *)
Section RoundTrip.
Import Re sim_log_parser.

Lemma isword_not_space (c : ascii) : Py.isword c = true -> Py.isspace c = false.
Proof.
  destruct c as [[] [] [] [] [] [] [] []]; vm_compute; intros H;
    try discriminate H; reflexivity.
Qed.

Lemma lstrip_word (w : string) : all_chars Py.isword w = true -> Py.lstrip w = w.
Proof.
  destruct w as [|c w]; simpl; [reflexivity|]. intros H.
  apply andb_true_iff in H as [H _]. now rewrite (isword_not_space c H).
Qed.

Lemma rstrip_word (w : string) : all_chars Py.isword w = true -> Py.rstrip w = w.
Proof.
  induction w as [|c w IH]; simpl; [reflexivity|]. intros H.
  apply andb_true_iff in H as [Hc H]. rewrite (IH H), (isword_not_space c Hc).
  now destruct w.
Qed.

Lemma strip_word (w : string) : all_chars Py.isword w = true -> Py.strip w = w.
Proof. intros H. unfold Py.strip. now rewrite lstrip_word, rstrip_word. Qed.

Lemma lstrip_span (p : ascii -> bool) (s : string) :
  stops Py.isspace s = true -> Py.lstrip (span_of p s) = span_of p s.
Proof.
  destruct s as [|c s]; simpl; [reflexivity|]. intros H.
  destruct (p c); simpl; [|reflexivity].
  apply negb_true_iff in H. now rewrite H.
Qed.

Ltac seq_step H :=
  lazymatch type of H with
  | run (Seq ?a ?b) ?s ?cs ?k = Some ?m =>
      change (run a s cs (fun s' cs' => run b s' cs' k) = Some m) in H;
      let w := fresh "w" in let s' := fresh "s" in let cs' := fresh "cs" in
      let E := fresh "E" in let D := fresh "D" in
      apply run_sound in H as (w & s' & cs' & E & D & H); cbv beta in H
  end.

Lemma parse_line_well_formed (line : string) (n : Z) (e : LogEntry) :
  parse_line line n = Some e -> well_formed e.
Proof.
  unfold parse_line. intros H.
  destruct (re_match LOG_PATTERN (Py.strip line)) as [m|] eqn:M; [|discriminate].
  injection H as <-.
  unfold re_match, LOG_PATTERN in M. cbn [seq_all] in M.
  do 20 seq_step M.
  rewrite run_message in M. injection M as <-.
  simpl in D, D0, D1, D2, D3, D4, D5, D6, D7, D8, D9, D10, D11, D12, D13, D14,
    D15, D16, D17, D18.
  break_all. subst. unfold well_formed, field_ok. cbn [timestamp level scope source tag message group Nat.eqb].
  rewrite (strip_word w4) by assumption.
  repeat split; auto.
  - do 9 eexists. split; [|reflexivity]. repeat constructor; assumption.
  - apply span_all.
  - apply lstrip_span. rewrite lstrip_after_span. apply after_span_stops.
Qed.


Lemma rstrips_cons c b b' : rstrips_to b b' -> rstrips_to (String c b) (String c b').
Proof.
  intros [R N]. split; [|discriminate]. simpl. rewrite R.
  destruct b'; [contradiction|reflexivity].
Qed.

Lemma rstrips_app a b b' : rstrips_to b b' -> rstrips_to (a ++ b) (a ++ b').
Proof.
  intros H. induction a as [|c a IH]; simpl; [exact H|]. now apply rstrips_cons.
Qed.

Lemma rstrip_spaces_after (a w : string) :
  all_chars Py.isspace w = true -> Py.rstrip (a ++ w) = Py.rstrip a.
Proof.
  intros W. induction a as [|c a IH]; simpl.
  - induction w as [|d w IHw]; simpl in *; [reflexivity|].
    apply andb_true_iff in W as [Hd W]. now rewrite (IHw W), Hd.
  - now rewrite IH.
Qed.

Lemma rstrips_closing (msg : string) :
  Py.rstrip msg = msg -> rstrips_to (String "]" (String " " (msg ++ nl))) (closing msg).
Proof.
  intros R. split; [|destruct msg; discriminate].
  simpl. rewrite (rstrip_spaces_after msg nl eq_refl), R.
  destruct msg; reflexivity.
Qed.

Lemma run_timestamp_ok (h1 h2 m1 m2 s1 s2 k1 k2 k3 : ascii) (s : string)
    (cs : captures) (k : string -> captures -> option captures) :
  List.Forall (fun c => Py.isdecimal c = true) [h1; h2; m1; m2; s1; s2; k1; k2; k3] ->
  run (Group 1 TIMESTAMP) (timestamp_text h1 h2 m1 m2 s1 s2 k1 k2 k3 ++ s) cs k
  = k s ((1%nat, timestamp_text h1 h2 m1 m2 s1 s2 k1 k2 k3) :: cs).
Proof.
  intros D. split_digits.
  rewrite <- (consumed_app (timestamp_text h1 h2 m1 m2 s1 s2 k1 k2 k3) s) at 2.
  unfold TIMESTAMP, timestamp_text, times, digit. cbn [run append].
  repeat match goal with H : Py.isdecimal _ = true |- _ => rewrite H; clear H end.
  reflexivity.
Qed.

Lemma stops_spaces_bracket (p : ascii -> bool) (n : nat) (s : string) :
  p " "%char = false -> p "]"%char = false ->
  stops p (Py.spaces n ++ String "]" s) = true.
Proof. intros A B. destruct n; simpl; [now rewrite B|now rewrite A]. Qed.

Lemma all_spaces (n : nat) : all_chars Py.isspace (Py.spaces n) = true.
Proof. induction n; simpl; auto. Qed.

Lemma span_of_all (p : ascii -> bool) (w : string) :
  all_chars p w = true -> span_of p w = w.
Proof.
  induction w as [|c w IH]; simpl; [reflexivity|]. intros H.
  apply andb_true_iff in H as [Hc H]. now rewrite Hc, IH.
Qed.

Ltac seq_goal :=
  lazymatch goal with
  | |- run (Seq ?a ?b) ?s ?cs ?k = Some ?m =>
      change (run a s cs (fun s' cs' => run b s' cs' k) = Some m)
  end.

Ltac lit := seq_goal; rewrite run_lit_ok.

(** The pattern on a line laid out as [__str__] lays it out. *)
Lemma match_canonical (h1 h2 m1 m2 s1 s2 k1 k2 k3 : ascii)
    (lvl scp src tg msg : string) (pad : nat) :
  List.Forall (fun c => Py.isdecimal c = true) [h1; h2; m1; m2; s1; s2; k1; k2; k3] ->
  lvl <> EmptyString -> all_chars Py.isword lvl = true ->
  field_ok scp -> field_ok src -> field_ok tg ->
  all_chars dot msg = true -> Py.lstrip msg = msg ->
  re_match LOG_PATTERN
    (String "[" (timestamp_text h1 h2 m1 m2 s1 s2 k1 k2 k3
     ++ String "]" (String " " (String "[" (lvl ++ Py.spaces pad
     ++ String "]" (String " " (String "[" (scp
     ++ String "]" (String " " (String "[" (src
     ++ String "]" (String " " (String "[" (tg
     ++ closing msg))))))))))))))
  = Some [(6%nat, msg); (5%nat, tg); (4%nat, src); (3%nat, scp); (2%nat, lvl);
          (1%nat, timestamp_text h1 h2 m1 m2 s1 s2 k1 k2 k3)].
Proof.
  intros D Nl Wl [Ns Ws] [Nr Wr] [Nt Wt] Dm Lm.
  unfold re_match, LOG_PATTERN. cbn [seq_all].
  lit. seq_goal. rewrite run_timestamp_ok by assumption.
  lit. seq_goal. apply (run_star_ok _ (String " " EmptyString)); [reflexivity|reflexivity|].
  lit. seq_goal. apply run_group_plus_ok; auto.
  { now apply stops_spaces_bracket. }
  seq_goal. apply run_star_ok; [apply all_spaces|reflexivity|].
  lit. seq_goal. apply (run_star_ok _ (String " " EmptyString)); [reflexivity|reflexivity|].
  lit. seq_goal. apply run_group_plus_ok; auto.
  lit. seq_goal. apply (run_star_ok _ (String " " EmptyString)); [reflexivity|reflexivity|].
  lit. seq_goal. apply run_group_plus_ok; auto.
  lit. seq_goal. apply (run_star_ok _ (String " " EmptyString)); [reflexivity|reflexivity|].
  lit. seq_goal. apply run_group_plus_ok; auto.
  { destruct msg; reflexivity. }
  assert (C : closing msg = String "]" (if String.eqb msg EmptyString then msg
                                        else String " " msg)).
  { destruct msg; reflexivity. }
  rewrite C. lit.
  rewrite run_message. do 2 f_equal. f_equal.
  destruct (String.eqb msg EmptyString) eqn:E.
  - apply String.eqb_eq in E. subst msg. reflexivity.
  - change (Py.lstrip (String " " msg)) with (Py.lstrip msg).
    rewrite Lm. now apply span_of_all.
Qed.

(** X9.  The line that [split_by_veh], [export_veh] and
    [export_filtered] write for an entry, [str(entry)] and a newline,
    parses back to the same entry under its new line number, for every
    entry that [parse_line] returned and whose message does not end in
    whitespace. *)
Theorem split_output_parses_back (line : string) (n n' : Z) (e : LogEntry) :
  parse_line line n = Some e ->
  Py.rstrip (message e) = message e ->
  parse_line (to_str e ++ nl) n' = Some (renumber e n').
Proof.
  intros P R. apply parse_line_well_formed in P.
  destruct P as ((h1 & h2 & m1 & m2 & s1 & s2 & k1 & k2 & k3 & D & T)
                 & (Nl & Wl) & Fs & Fr & Ft & Dm & Lm).
  destruct e as [ts lvl scp src tg msg ln]. simpl in *. subst ts.
  unfold parse_line, to_str, Py.ljust. cbn [timestamp level scope source tag message].
  repeat (rewrite !append_assoc; cbn [append]).
  lazymatch goal with
  | |- context [Py.strip (String "[" ?x)] =>
      eassert (S : rstrips_to x _);
      [ repeat first [ apply rstrips_closing; assumption
                     | apply rstrips_cons | apply rstrips_app ]
      | apply (rstrips_cons "[") in S; destruct S as [S _];
        change (Py.strip (String "[" x)) with (Py.rstrip (String "[" x));
        rewrite S ]
  end.
  pose proof (match_canonical h1 h2 m1 m2 s1 s2 k1 k2 k3 lvl scp src tg msg
                (5 - String.length lvl) D Nl Wl Fs Fr Ft Dm Lm) as M.
  unfold timestamp_text in M. cbn [append] in M. rewrite M.
  unfold renumber, timestamp_text. cbn [group Nat.eqb timestamp level scope source tag message].
  now rewrite strip_word.
Qed.

Lemma split_output_parses_back_witness :
  parse_line (to_str late_entry ++ nl) 9 = Some (renumber late_entry 9).
Proof.
  exact (split_output_parses_back late_line 1 9 late_entry eq_refl eq_refl).
Defined.

(** The message is cut out of the end of the stripped line. *)
Lemma parse_line_message (line : string) (n : Z) (e : LogEntry) :
  parse_line line n = Some e ->
  exists pre s, Py.strip line = pre ++ s /\ message e = span_of dot (Py.lstrip s).
Proof.
  unfold parse_line. intros H.
  destruct (re_match LOG_PATTERN (Py.strip line)) as [m|] eqn:M; [|discriminate].
  injection H as <-.
  unfold re_match, LOG_PATTERN in M. cbn [seq_all] in M.
  do 20 seq_step M.
  rewrite run_message in M. injection M as <-.
  clear D D0 D1 D2 D3 D4 D5 D6 D7 D8 D9 D10 D11 D12 D13 D14 D15 D16 D17 D18.
  subst. rewrite <- !append_assoc in E.
  eexists _, s18. split; [exact E|reflexivity].
Qed.

Lemma rstrip_idem (s : string) : Py.rstrip (Py.rstrip s) = Py.rstrip s.
Proof.
  induction s as [|c s IH]; simpl; [reflexivity|].
  destruct (Py.rstrip s) as [|d r] eqn:R.
  - destruct (Py.isspace c) eqn:C; simpl; [reflexivity|now rewrite C].
  - simpl in *. now rewrite IH.
Qed.

Lemma rstrip_suffix (a b : string) :
  Py.rstrip (a ++ b) = a ++ b -> Py.rstrip b = b.
Proof.
  induction a as [|c a IH]; simpl; [auto|]. intros H.
  destruct (Py.rstrip (a ++ b)) as [|d r] eqn:R.
  - destruct (Py.isspace c); [discriminate|]. injection H as H.
    apply IH. now rewrite <- H.
  - injection H as H. apply IH. exact H.
Qed.

Lemma lstrip_suffix (s : string) : exists pre, s = pre ++ Py.lstrip s.
Proof.
  induction s as [|c s [pre IH]]; simpl.
  - now exists EmptyString.
  - destruct (Py.isspace c).
    + exists (String c pre). simpl. now rewrite <- IH.
    + now exists EmptyString.
Qed.

Lemma all_chars_app_r (p : ascii -> bool) (a b : string) :
  all_chars p (a ++ b) = true -> all_chars p b = true.
Proof.
  induction a as [|c a IH]; simpl; [auto|]. intros H.
  apply andb_true_iff in H as [_ H]. auto.
Qed.

(** X10.  Every entry that [parse_line] returns carries the line
    number it was given, a timestamp of the form dd:dd:dd.ddd, a level
    that is a non-empty run of word characters, a scope, a source and a
    tag that are non-empty and hold no closing bracket, and a message
    without a newline that does not begin with whitespace.  When the
    stripped line holds no newline the message is the end of the stripped
    line and does not end in whitespace either. *)
Theorem parsed_entry_shape (line : string) (n : Z) (e : LogEntry) :
  parse_line line n = Some e ->
  well_formed e
  /\ line_num e = n
  /\ (all_chars dot (Py.strip line) = true ->
      Py.rstrip (message e) = message e
      /\ exists pre, Py.strip line = pre ++ message e).
Proof.
  intros P. split; [exact (parse_line_well_formed line n e P)|]. split.
  - unfold parse_line in P.
    destruct (re_match LOG_PATTERN (Py.strip line)); [|discriminate].
    injection P as <-. reflexivity.
  - intros A. destruct (parse_line_message line n e P) as (pre & s & E & M).
    destruct (lstrip_suffix s) as [sp S].
    assert (L : all_chars dot (Py.lstrip s) = true).
    { rewrite E in A. apply all_chars_app_r in A. rewrite S in A.
      now apply all_chars_app_r in A. }
    rewrite (span_of_all dot _ L) in M.
    assert (F : Py.strip line = (pre ++ sp) ++ message e).
    { rewrite E, S at 1. rewrite M. now rewrite append_assoc. }
    split; [|now exists (pre ++ sp)].
    apply (rstrip_suffix (pre ++ sp)). rewrite <- F.
    unfold Py.strip. apply rstrip_idem.
Qed.

Lemma parsed_entry_shape_witness :
  well_formed late_entry /\ line_num late_entry = 1.
Proof.
  destruct (parsed_entry_shape late_line 1 late_entry eq_refl) as (W & L & _).
  split; [exact W|exact L].
Defined.

End RoundTrip.

(** ** The vehicle of a scope *)
Section Scope.
Import Re sim_log_parser.

Ltac by_digit H :=
  apply digit_cases in H;
  destruct H as [H|[H|[H|[H|[H|[H|[H|[H|[H|H]]]]]]]]]; subst.

Lemma digit_not_space (c : ascii) : Py.isdecimal c = true -> Py.isspace c = false.
Proof.
  destruct c as [[] [] [] [] [] [] [] []]; vm_compute; intros H;
    try discriminate H; reflexivity.
Qed.

Lemma rstrip_digits (w : string) : all_chars Py.isdecimal w = true -> Py.rstrip w = w.
Proof.
  induction w as [|c w IH]; simpl; [reflexivity|]. intros H.
  apply andb_true_iff in H as [Hc H]. rewrite (IH H), (digit_not_space c Hc).
  now destruct w.
Qed.

Lemma int_digits_all (w : string) : forall acc b,
  all_chars Py.isdecimal w = true ->
  Py.int_digits w acc b = if (String.eqb w EmptyString) then (if b then Some acc else None)
                          else Some (dec_val w acc).
Proof.
  induction w as [|c w IH]; intros acc b H; simpl in *; [reflexivity|].
  apply andb_true_iff in H as [Hc H]. rewrite Hc, (IH _ true H).
  destruct w; reflexivity.
Qed.

Lemma dec_val_nonneg (w : string) : forall acc,
  all_chars Py.isdecimal w = true -> 0 <= acc -> 0 <= dec_val w acc.
Proof.
  induction w as [|c w IH]; intros acc H A; simpl in *; [exact A|].
  apply andb_true_iff in H as [Hc H]. apply IH; [exact H|].
  pose proof (digit_value_range c Hc). lia.
Qed.

(** [int] on a non-empty string of decimal digits never raises. *)
Lemma int_of_digits (w : string) :
  w <> EmptyString -> all_chars Py.isdecimal w = true ->
  Py.int w = Some (dec_val w 0) /\ 0 <= dec_val w 0.
Proof.
  intros N D. split; [|apply dec_val_nonneg; [exact D|lia]].
  unfold Py.int, Py.strip. rewrite (rstrip_digits (Py.lstrip w)).
  - destruct w as [|c w]; [contradiction|]. simpl in D.
    apply andb_true_iff in D as [Hc D]. simpl. rewrite (digit_not_space c Hc).
    pose proof (int_digits_all (String c w) 0 false) as I. simpl in I.
    rewrite Hc, D in I. specialize (I eq_refl).
    by_digit Hc; exact I.
  - destruct w as [|c w]; [contradiction|]. simpl in *.
    apply andb_true_iff in D as [Hc D]. rewrite (digit_not_space c Hc). simpl.
    now rewrite Hc, D.
Qed.

(** X11.  When [veh_id] of an entry is [v], then [v] is not negative,
    the entry is not global, and its scope is "veh:" followed by a
    non-empty run of decimal digits that spells [v] and by whatever else
    the scope holds. *)
Theorem veh_id_of_scope (e : LogEntry) (v : Z) :
  veh_id e = Some v ->
  0 <= v
  /\ is_global e = false
  /\ exists digits rest,
       scope e = "veh:" ++ digits ++ rest
       /\ digits <> EmptyString
       /\ all_chars Py.isdecimal digits = true
       /\ Py.int digits = Some v.
Proof.
  unfold veh_id. intros H.
  destruct (re_match VEH_PATTERN (scope e)) as [m|] eqn:M; [|discriminate].
  unfold re_match in M. apply run_sound in M as (w & s' & cs' & E & D & M).
  injection M as <-. simpl in D. break_all. subst. simpl in H.
  match goal with N : ?d <> EmptyString, A : all_chars Py.isdecimal ?d = true |- _ =>
    destruct (int_of_digits d N A) as [I P]; rewrite I in H; injection H as <-;
    split; [exact P|]; split;
    [ unfold is_global; rewrite E; reflexivity
    | exists d, s'; rewrite E; repeat split; auto ]
  end.
Qed.

Lemma veh_id_of_scope_witness :
  veh_id late_entry = Some 7 /\ 0 <= 7 /\ is_global late_entry = false.
Proof.
  destruct (veh_id_of_scope late_entry 7 eq_refl) as (A & B & _).
  split; [reflexivity|]. split; [exact A|exact B].
Defined.

End Scope.

(** ** Head and tail of [print_entries] *)
Section Printing.
Import Re sim_log_parser.



Section HeadMode.
Variable cfg : FilterConfig.
Variables t0 t1 : option Z.
Variable limit : Z.


End HeadMode.



End Printing.

(** ** The time bounds of the filter *)
Section TimeBounds.
Import sim_log_parser.

Lemma split_nonempty (sep : ascii) (s : string) : Py.split sep s <> [].
Proof.
  induction s as [|c s IH]; simpl; [discriminate|].
  destruct (Ascii.eqb c sep); [discriminate|].
  destruct (Py.split sep s); [contradiction|discriminate].
Qed.

(** A stretch without the separator stays in front of the first part. *)
Lemma split_app (sep : ascii) (x y : string) :
  Py.has_char sep x = false ->
  Py.split sep (x ++ y)
  = match Py.split sep y with
    | p :: ps => (x ++ p) :: ps
    | [] => []
    end.
Proof.
  induction x as [|c x IH]; simpl; intros H.
  - now destruct (Py.split sep y).
  - apply orb_false_iff in H. destruct H as [Hc Hx].
    rewrite Ascii.eqb_sym, Hc, (IH Hx).
    destruct (Py.split sep y) eqn:E; [|reflexivity].
    exfalso. eapply split_nonempty; eassumption.
Qed.

Lemma split_sep (sep : ascii) (x y : string) :
  Py.has_char sep x = false ->
  Py.split sep (x ++ String sep y) = x :: Py.split sep y.
Proof.
  intros H. rewrite (split_app sep x _ H). simpl. rewrite Ascii.eqb_refl.
  now rewrite append_empty_r.
Qed.

Lemma split_none (sep : ascii) (x : string) :
  Py.has_char sep x = false -> Py.split sep x = [x].
Proof.
  intros H. rewrite <- (append_empty_r x) at 1.
  rewrite (split_app sep x _ H). simpl. now rewrite append_empty_r.
Qed.

Lemma truthy_app (x y : string) (c : ascii) :
  truthy_str (Some (x ++ String c y)) = true.
Proof. destruct x; reflexivity. Qed.

(** X19.  A time bound is read to the second.  For "h:m:s" where the
    three parts hold no colon and [s] no dot, the bound is
    ((h*60+m)*60+s)*1000 when [int] accepts the parts and an exception
    otherwise; whatever follows a dot after the seconds is ignored;
    "h:m" is read with 0 seconds; a text without a colon gives no bound
    at all. *)
Theorem time_bound_has_second_resolution (a b c rest : string) :
  Py.has_char ":" a = false ->
  Py.has_char ":" b = false ->
  Py.has_char ":" c = false ->
  Py.has_char "." c = false ->
  time_bound_ms (Some (a ++ ":" ++ b ++ ":" ++ c ++ "." ++ rest))
  = time_bound_ms (Some (a ++ ":" ++ b ++ ":" ++ c))
  /\ time_bound_ms (Some (a ++ ":" ++ b ++ ":" ++ c))
     = (do h <- Py.int a; do m <- Py.int b; do s <- Py.int c;
        Some (Some (((h * 60 + m) * 60 + s) * 1000)))
  /\ time_bound_ms (Some (a ++ ":" ++ b))
     = (do h <- Py.int a; do m <- Py.int b;
        Some (Some (((h * 60 + m) * 60 + 0) * 1000)))
  /\ time_bound_ms (Some a) = Some None.
Proof.
  intros Ha Hb Hc Hd.
  assert (F : time_bound_ms (Some (a ++ ":" ++ b ++ ":" ++ c))
     = (do h <- Py.int a; do m <- Py.int b; do s <- Py.int c;
        Some (Some (((h * 60 + m) * 60 + s) * 1000)))).
  { unfold time_bound_ms.
    change (a ++ ":" ++ b ++ ":" ++ c) with (a ++ String ":" (b ++ String ":" c)).
    rewrite truthy_app. unfold from_option, id.
    rewrite (split_sep ":" a _ Ha), (split_sep ":" b _ Hb), (split_none ":" c Hc).
    cbn [length Nat.leb Nat.ltb Py.index nth_error].
    destruct (Py.int a); [|reflexivity]. destruct (Py.int b); [|reflexivity].
    rewrite (split_none "." c Hd). reflexivity. }
  split; [|split; [exact F|split]].
  - rewrite F. unfold time_bound_ms.
    change (a ++ ":" ++ b ++ ":" ++ c ++ "." ++ rest)
      with (a ++ String ":" (b ++ String ":" (c ++ String "." rest))).
    rewrite truthy_app. unfold from_option, id.
    rewrite (split_sep ":" a _ Ha), (split_sep ":" b _ Hb).
    rewrite (split_app ":" c _ Hc).
    pose proof (split_nonempty ":" (String "." rest)) as NE.
    destruct (Py.split ":" (String "." rest)) as [|p ps] eqn:S; [contradiction|].
    assert (P : exists q, p = String "." q).
    { simpl in S. destruct (Py.split ":" rest) as [|p' ps'] eqn:R.
      - injection S as <- <-. eauto.
      - injection S as <- <-. eauto. }
    destruct P as [q ->].
    cbn [length Nat.leb Nat.ltb Py.index nth_error].
    destruct (Py.int a); [|reflexivity]. destruct (Py.int b); [|reflexivity].
    rewrite (split_sep "." c _ Hd). reflexivity.
  - unfold time_bound_ms. change (a ++ ":" ++ b) with (a ++ String ":" b).
    rewrite truthy_app. unfold from_option, id.
    rewrite (split_sep ":" a _ Ha), (split_none ":" b Hb).
    cbn [length Nat.leb Nat.ltb Py.index nth_error].
    destruct (Py.int a); [|reflexivity]. destruct (Py.int b); reflexivity.
  - unfold time_bound_ms. destruct (truthy_str (Some a)); [|reflexivity].
    unfold from_option, id. rewrite (split_none ":" a Ha). reflexivity.
Qed.

Lemma time_bound_has_second_resolution_witness :
  time_bound_ms (Some "00:00:05.900") = Some (Some 5000)
  /\ time_bound_ms (Some "00:01") = Some (Some 60000)
  /\ time_bound_ms (Some "5") = Some None.
Proof.
  destruct (time_bound_has_second_resolution "00" "00" "05" "900"
              eq_refl eq_refl eq_refl eq_refl) as (A & B & _ & _).
  destruct (time_bound_has_second_resolution "00" "01" EmptyString EmptyString
              eq_refl eq_refl eq_refl eq_refl) as (_ & _ & C & _).
  destruct (time_bound_has_second_resolution "5" EmptyString EmptyString EmptyString
              eq_refl eq_refl eq_refl eq_refl) as (_ & _ & _ & D).
  split; [|split].
  - exact (eq_trans A B).
  - exact C.
  - exact D.
Defined.

End TimeBounds.

(** ** Packing and unpacking one record *)
Section Packing.
Import Struct log_parser.

Lemma le_uint_below (bs : list byte) (n : nat) :
  (length bs <= n)%nat -> 0 <= le_uint bs < 2 ^ (8 * Z.of_nat n).
Proof.
  intros H. pose proof (le_uint_range bs) as [L U]. split; [exact L|].
  eapply Z.lt_le_trans; [exact U|]. apply Z.pow_le_mono_r; lia.
Qed.

Lemma slice_length {A} (l : list A) (off len : nat) : (length (slice l off len) <= len)%nat.
Proof. unfold slice. rewrite length_firstn. lia. Qed.

(** X13.  A record comes out of [unpack_record] only for a buffer of
    28 bytes; each of its integer fields lies in the range of its
    unsigned type, and its transit time lies strictly between -2^32 and
    2^32. *)
Theorem unpacked_fields_in_range (data : list byte) (r : EdgeTransitRecord) :
  unpack_record data = Some r ->
  length data = 28%nat /\ in_range r /\ - 2 ^ 32 < transit_time r < 2 ^ 32.
Proof.
  unfold unpack_record. destruct (length data =? 28)%nat eqn:L; [|discriminate].
  apply Nat.eqb_eq in L. intros H. injection H as <-. split; [exact L|].
  assert (R : in_range
                {| timestamp := le_uint (slice data 0 4);
                   worker_id := le_uint (slice data 4 1);
                   fab_id := le_uint (slice data 5 1);
                   edge_id := le_uint (slice data 6 2);
                   veh_id := le_uint (slice data 8 4);
                   enter_time := le_uint (slice data 12 4);
                   exit_time := le_uint (slice data 16 4);
                   edge_length := unpack_f32 (le_uint (slice data 20 4));
                   edge_type := le_uint (slice data 24 1) |}).
  { unfold in_range. cbn [timestamp worker_id fab_id edge_id veh_id enter_time
                          exit_time edge_type].
    repeat split;
      first [ apply (le_uint_below _ 4), slice_length
            | apply (le_uint_below _ 2), slice_length
            | apply (le_uint_below _ 1), slice_length ]. }
  split; [exact R|].
  destruct R as (_ & _ & _ & _ & _ & E & X & _). unfold transit_time.
  cbn [enter_time exit_time] in *. lia.
Qed.

Lemma unpacked_fields_in_range_witness :
  unpack_record sample_record
  = Some {| timestamp := 1000; worker_id := 2; fab_id := 1; edge_id := 260;
            veh_id := 5; enter_time := 900; exit_time := 1400;
            edge_length := 2.5%float; edge_type := 1 |}
  /\ length sample_record = 28%nat
  /\ in_range {| timestamp := 1000; worker_id := 2; fab_id := 1; edge_id := 260;
                 veh_id := 5; enter_time := 900; exit_time := 1400;
                 edge_length := 2.5%float; edge_type := 1 |}.
Proof.
  split; [vm_compute; reflexivity|].
  destruct (unpacked_fields_in_range sample_record
              {| timestamp := 1000; worker_id := 2; fab_id := 1; edge_id := 260;
                 veh_id := 5; enter_time := 900; exit_time := 1400;
                 edge_length := 2.5%float; edge_type := 1 |})
    as (L & R & _); [vm_compute; reflexivity|]. split; assumption.
Defined.

Lemma le_bytes_length (n : nat) (v : Z) : length (le_bytes n v) = n.
Proof. revert v. induction n; intros; simpl; [reflexivity|]. now rewrite IHn. Qed.

Lemma byte_val_of (v : Z) : byte_val (byte_of v) = v mod 256.
Proof.
  unfold byte_of, byte_val.
  pose proof (Z.mod_pos_bound v 256 ltac:(lia)) as B.
  pose proof (Byte.to_of_N_option_map (Z.to_N (v mod 256))) as O.
  replace (Z.to_N (v mod 256) <=? 255)%N with true in O
    by (symmetry; apply N.leb_le; lia).
  destruct (Byte.of_N (Z.to_N (v mod 256))) as [b|]; [|discriminate O].
  simpl in O. injection O as ->. lia.
Qed.

Lemma le_uint_le_bytes (n : nat) : forall v,
  0 <= v < 2 ^ (8 * Z.of_nat n) -> le_uint (le_bytes n v) = v.
Proof.
  induction n as [|n IH]; intros v H.
  - simpl in *. lia.
  - cbn [le_bytes le_uint]. rewrite byte_val_of, IH.
    + pose proof (Z.div_mod v 256 ltac:(lia)). lia.
    + replace (8 * Z.of_nat (S n)) with (8 + 8 * Z.of_nat n) in H by lia.
      rewrite Z.pow_add_r in H by lia. change (2 ^ 8) with 256 in H.
      split; [apply Z.div_pos; lia|apply Z.div_lt_upper_bound; lia].
Qed.

Lemma pack_uint_inv (n : nat) (v : Z) (bs : list byte) :
  pack_uint n v = Some bs ->
  length bs = n /\ le_uint bs = v /\ 0 <= v < 2 ^ (8 * Z.of_nat n).
Proof.
  unfold pack_uint. destruct (0 <=? v) eqn:A; [|discriminate].
  destruct (v <? 2 ^ (8 * Z.of_nat n)) eqn:B; [|discriminate].
  apply Z.leb_le in A. apply Z.ltb_lt in B. simpl. intros H. injection H as <-.
  split; [apply le_bytes_length|]. split; [now apply le_uint_le_bytes|lia].
Qed.

Ltac explode_list l n :=
  let rec go l n :=
    lazymatch n with
    | O => destruct l; [|discriminate]
    | S ?m => let x := fresh "x" in destruct l as [|x l]; [discriminate|]; go l m
    end in go l n.

Lemma pack_record_inv (r : EdgeTransitRecord) (data : list byte) :
  pack_record r = Some data ->
  length data = 28%nat
  /\ slice data 25 3 = ["000"%byte; "000"%byte; "000"%byte]
  /\ in_range r
  /\ exists r', unpack_record data = Some r' /\ same_integers r r'.
Proof.
  unfold pack_record. intros H.
  destruct (pack_uint 4 (timestamp r)) as [b0|] eqn:P0; [|discriminate].
  destruct (pack_uint 1 (worker_id r)) as [b1|] eqn:P1; [|discriminate].
  destruct (pack_uint 1 (fab_id r)) as [b2|] eqn:P2; [|discriminate].
  destruct (pack_uint 2 (edge_id r)) as [b3|] eqn:P3; [|discriminate].
  destruct (pack_uint 4 (veh_id r)) as [b4|] eqn:P4; [|discriminate].
  destruct (pack_uint 4 (enter_time r)) as [b5|] eqn:P5; [|discriminate].
  destruct (pack_uint 4 (exit_time r)) as [b6|] eqn:P6; [|discriminate].
  destruct (pack_f32 (edge_length r)) as [f|] eqn:PF; [|discriminate].
  destruct (pack_uint 1 (edge_type r)) as [b8|] eqn:P8; [|discriminate].
  injection H as <-.
  apply pack_uint_inv in P0 as (L0 & V0 & R0), P1 as (L1 & V1 & R1),
    P2 as (L2 & V2 & R2), P3 as (L3 & V3 & R3), P4 as (L4 & V4 & R4),
    P5 as (L5 & V5 & R5), P6 as (L6 & V6 & R6), P8 as (L8 & V8 & R8).
  pose proof (le_bytes_length 4 f) as LF.
  remember (le_bytes 4 f) as bf eqn:Ebf. clear Ebf.
  explode_list b0 4%nat. explode_list b1 1%nat. explode_list b2 1%nat.
  explode_list b3 2%nat. explode_list b4 4%nat. explode_list b5 4%nat.
  explode_list b6 4%nat. explode_list bf 4%nat. explode_list b8 1%nat.
  split; [reflexivity|]. split; [reflexivity|]. split.
  - unfold in_range. repeat split; lia.
  - eexists. split; [reflexivity|].
    unfold same_integers, slice.
    cbn [firstn skipn app timestamp worker_id fab_id edge_id veh_id enter_time
         exit_time edge_type].
    repeat split; symmetry; assumption.
Qed.

Lemma pack_uint_none (n : nat) (v : Z) :
  pack_uint n v = None -> ~ (0 <= v < 2 ^ (8 * Z.of_nat n)).
Proof.
  unfold pack_uint. destruct (0 <=? v) eqn:A; simpl.
  - destruct (v <? 2 ^ (8 * Z.of_nat n)) eqn:B; [discriminate|].
    apply Z.ltb_ge in B. lia.
  - apply Z.leb_gt in A. lia.
Qed.

(** X14.  Packing a record raises exactly when an integer field is
    outside the range of its unsigned type or the edge length does not
    fit a binary32.  When it raises nothing, the result has 28 bytes of
    which the last three are zero, and unpacking it gives a record with
    the same integer fields. *)
Theorem pack_record_layout (r : EdgeTransitRecord) :
  (pack_record r = None <-> ~ in_range r \/ pack_f32 (edge_length r) = None)
  /\ forall data, pack_record r = Some data ->
       length data = 28%nat
       /\ slice data 25 3 = ["000"%byte; "000"%byte; "000"%byte]
       /\ exists r', unpack_record data = Some r' /\ same_integers r r'.
Proof.
  split; [split|].
  - unfold pack_record, in_range. intros H.
    destruct (pack_uint 4 (timestamp r)) eqn:P0;
      [|apply pack_uint_none in P0; left; simpl in *; lia].
    destruct (pack_uint 1 (worker_id r)) eqn:P1;
      [|apply pack_uint_none in P1; left; simpl in *; lia].
    destruct (pack_uint 1 (fab_id r)) eqn:P2;
      [|apply pack_uint_none in P2; left; simpl in *; lia].
    destruct (pack_uint 2 (edge_id r)) eqn:P3;
      [|apply pack_uint_none in P3; left; simpl in *; lia].
    destruct (pack_uint 4 (veh_id r)) eqn:P4;
      [|apply pack_uint_none in P4; left; simpl in *; lia].
    destruct (pack_uint 4 (enter_time r)) eqn:P5;
      [|apply pack_uint_none in P5; left; simpl in *; lia].
    destruct (pack_uint 4 (exit_time r)) eqn:P6;
      [|apply pack_uint_none in P6; left; simpl in *; lia].
    destruct (pack_f32 (edge_length r)) eqn:PF; [|now right].
    destruct (pack_uint 1 (edge_type r)) eqn:P8;
      [discriminate H|apply pack_uint_none in P8; left; simpl in *; lia].
  - intros H. destruct (pack_record r) as [data|] eqn:P; [exfalso|reflexivity].
    destruct (pack_record_inv r data P) as (_ & _ & R & _).
    destruct H as [H|H]; [exact (H R)|].
    unfold pack_record in P. rewrite H in P.
    repeat match type of P with
           | match ?x with Some _ => _ | None => None end = Some _ =>
               destruct x; [|discriminate P]
           end.
    discriminate P.
  - intros data P. destruct (pack_record_inv r data P) as (L & Z & _ & U).
    split; [exact L|]. split; [exact Z|exact U].
Qed.

Lemma pack_record_layout_witness :
  exists data,
    pack_record stalled_record = Some data
    /\ length data = 28%nat
    /\ slice data 25 3 = ["000"%byte; "000"%byte; "000"%byte].
Proof.
  destruct (pack_record stalled_record) as [data|] eqn:P;
    [|vm_compute in P; discriminate].
  exists data. split; [reflexivity|].
  destruct (proj2 (pack_record_layout stalled_record) data P) as (L & Z & _).
  split; [exact L|exact Z].
Defined.

End Packing.

(** ** Grouping records and splitting them into files *)
Section Groups.
Import Struct log_parser.
Import sim_log_parser(dict_get, dict_set).

Section Grouping.
Variable key : EdgeTransitRecord -> Z.

Lemma group_loop_get (records : list EdgeTransitRecord) : forall grouped k,
  default [] (dict_get (group_loop key records grouped) k)
  = (default [] (dict_get grouped k)
     ++ List.filter (fun r => key r =? k) records)%list.
Proof.
  induction records as [|r rest IH]; intros grouped k; simpl.
  - now rewrite app_nil_r.
  - rewrite IH. destruct (key r =? k) eqn:E.
    + apply Z.eqb_eq in E. subst k. rewrite dict_get_set_eq. simpl.
      now rewrite <- app_assoc.
    + apply Z.eqb_neq in E. now rewrite dict_get_set_ne.
Qed.

Lemma group_loop_ok (records : list EdgeTransitRecord) : forall grouped,
  groups_ok grouped -> groups_ok (group_loop key records grouped).
Proof.
  induction records as [|r rest IH]; intros grouped [G N]; simpl; [split; assumption|].
  apply IH. split; [|now apply dict_set_nodup].
  intros k rs. destruct (Z.eq_dec (key r) k) as [<-|Ne].
  - rewrite dict_get_set_eq. intros H. injection H as <-.
    intros E. now apply app_eq_nil in E as [_ E].
  - rewrite dict_get_set_ne by assumption. apply G.
Qed.

Lemma group_loop_groups (records : list EdgeTransitRecord) (k : Z) :
  dict_get (group_loop key records []) k
  = match List.filter (fun r => key r =? k) records with
    | [] => None
    | rs => Some rs
    end
  /\ List.NoDup (map fst (group_loop key records [])).
Proof.
  pose proof (group_loop_get records [] k) as G. simpl in G.
  destruct (group_loop_ok records []) as [E N].
  { split; [intros ? ?; discriminate|constructor]. }
  split; [|exact N].
  destruct (dict_get (group_loop key records []) k) as [rs|] eqn:D; simpl in G.
  - rewrite <- G. specialize (E k rs D). destruct rs; [contradiction|reflexivity].
  - now rewrite <- G.
Qed.

End Grouping.

(** X15.  [group_by_veh] maps a vehicle id to the records of that
    vehicle in their order in the input, has no entry for an id without
    records, and has each key once; [group_by_edge] does the same by edge
    id. *)
Theorem group_by_veh_partitions (records : list EdgeTransitRecord) (v : Z) :
  dict_get (group_by_veh records) v
  = match List.filter (fun r => veh_id r =? v) records with
    | [] => None
    | rs => Some rs
    end
  /\ List.NoDup (map fst (group_by_veh records))
  /\ dict_get (group_by_edge records) v
     = match List.filter (fun r => edge_id r =? v) records with
       | [] => None
       | rs => Some rs
       end
  /\ List.NoDup (map fst (group_by_edge records)).
Proof.
  destruct (group_loop_groups veh_id records v) as [A B].
  destruct (group_loop_groups edge_id records v) as [C D].
  repeat split; assumption.
Qed.

Lemma pack_all_blocks (records : list EdgeTransitRecord) : forall data,
  pack_all records = Some data ->
  length data = (28 * length records)%nat
  /\ List.Forall2 (fun r block => pack_record r = Some block)
                  records (blocks (length records) data).
Proof.
  induction records as [|r rest IH]; intros data H; simpl in H.
  - injection H as <-. split; [reflexivity|constructor].
  - destruct (pack_record r) as [b|] eqn:P; [|discriminate].
    destruct (pack_all rest) as [more|] eqn:M; [|discriminate].
    injection H as <-. destruct (IH more eq_refl) as [L F].
    destruct (pack_record_inv r b P) as (Lb & _).
    split; [rewrite length_app; simpl length; lia|].
    simpl blocks. replace (firstn 28 (b ++ more)) with b.
    + replace (skipn 28 (b ++ more)) with more; [constructor; assumption|].
      rewrite <- Lb at 1. now rewrite skipn_app, skipn_all, Nat.sub_diag.
    + rewrite <- Lb at 1. now rewrite firstn_app, firstn_all, Nat.sub_diag, app_nil_r.
Qed.

Lemma Forall2_through {A B C} (P : A -> B -> Prop) (Q : C -> B -> Prop)
    (S : A -> C -> Prop) (xs : list A) (bs : list B) (zs : list C) :
  (forall x b z, P x b -> Q z b -> S x z) ->
  List.Forall2 P xs bs -> List.Forall2 Q zs bs -> List.Forall2 S xs zs.
Proof.
  intros H F. revert zs. induction F as [|x b xs bs Pxb F IH]; intros zs G.
  - inversion G. constructor.
  - inversion G as [|z b' zs' bs' Qzb G']; subst. constructor; eauto.
Qed.

(** What [pack_all] wrote, [parse_log_file] reads back: as many records,
    with the same integer fields. *)
Lemma pack_all_parses (records : list EdgeTransitRecord) (data : list byte) :
  pack_all records = Some data ->
  exists out, parse_log_file data = Some out
              /\ List.Forall2 same_integers records out.
Proof.
  intros H. destruct (pack_all_blocks records data H) as [L F].
  destruct (parse_loop_spec data []) as (out & E & G).
  exists out. split; [exact E|].
  replace (length data / 28)%nat with (length records) in G
    by (rewrite L, Nat.mul_comm, Nat.div_mul; lia).
  refine (Forall2_through _ _ _ _ _ _ _ F G).
  intros r b r' Pk Un. cbv beta in *.
  destruct (pack_record_inv r b Pk) as (_ & _ & _ & r0 & U & S). congruence.
Qed.

Lemma write_groups_in (groups : list (Z * list EdgeTransitRecord)) : forall files,
  write_groups groups = Some files ->
  map fst files = map fst groups
  /\ forall v data, List.In (v, data) files ->
       exists rs, List.In (v, rs) groups /\ pack_all rs = Some data.
Proof.
  induction groups as [|[v rs] rest IH]; intros files H; simpl in H.
  - injection H as <-. split; [reflexivity|]. intros ? ? [].
  - destruct (pack_all rs) as [data|] eqn:P; [|discriminate].
    destruct (write_groups rest) as [more|] eqn:W; [|discriminate].
    injection H as <-. destruct (IH more eq_refl) as [K I]. split.
    + simpl. now rewrite K.
    + intros w d [E|E].
      * injection E as <- <-. exists rs. split; [now left|exact P].
      * destruct (I w d E) as (rs' & In' & P'). exists rs'. split; [now right|exact P'].
Qed.

Lemma dict_get_in {V} (g : list (Z * V)) (k : Z) (x : V) :
  List.NoDup (map fst g) -> List.In (k, x) g -> dict_get g k = Some x.
Proof.
  induction g as [|[j y] g IH]; simpl; intros N H; [contradiction|].
  inversion N as [|? ? Nj N']; subst. destruct H as [H|H].
  - injection H as -> ->. now rewrite Z.eqb_refl.
  - destruct (j =? k) eqn:E; [|now apply IH].
    apply Z.eqb_eq in E. subst j. exfalso. apply Nj.
    apply in_map_iff. now exists (k, x).
Qed.

Lemma filter_all {A} (f : A -> bool) (l : list A) :
  List.Forall (fun x => f x = true) (List.filter f l).
Proof.
  apply List.Forall_forall. intros x H. now apply List.filter_In in H.
Qed.

(** X16.  When the binary [split_by_veh] raises nothing, it writes one
    file per key of [group_by_veh], in that order; the file of vehicle
    [v] has 28 bytes per record of [v], and [parse_log_file] reads it
    back as that many records, with the integer fields of the records of
    [v] in their order in the input and all with vehicle id [v]. *)
Theorem split_files_read_back (records : list EdgeTransitRecord)
    (files : list (Z * list byte)) (v : Z) (data : list byte) :
  split_by_veh records = Some files ->
  List.In (v, data) files ->
  map fst files = map fst (group_by_veh records)
  /\ length data
     = (28 * length (List.filter (fun r => (veh_id r =? v)%Z) records))%nat
  /\ exists out,
       parse_log_file data = Some out
       /\ List.Forall2 same_integers
            (List.filter (fun r => veh_id r =? v) records) out
       /\ List.Forall (fun r' => veh_id r' = v) out.
Proof.
  unfold split_by_veh. intros W I.
  destruct (write_groups_in _ _ W) as [K G]. split; [exact K|].
  destruct (G v data I) as (rs & In' & P).
  destruct (group_loop_groups veh_id records v) as [D N].
  fold (group_by_veh records) in D, N.
  rewrite (dict_get_in _ v rs N In') in D.
  assert (E : rs = List.filter (fun r => veh_id r =? v) records).
  { destruct (List.filter _ records); [discriminate|]. congruence. }
  subst rs. destruct (pack_all_blocks _ _ P) as [L _]. split; [exact L|].
  destruct (pack_all_parses _ _ P) as (out & Q & S).
  exists out. split; [exact Q|]. split; [exact S|].
  pose proof (filter_all (fun r => veh_id r =? v) records) as A.
  clear - S A. induction S as [|r r' rs outs Srr S IH]; constructor.
  - inversion A as [|? ? Hr A']; subst. apply Z.eqb_eq in Hr.
    destruct Srr as (_ & _ & _ & _ & Ev & _). congruence.
  - inversion A; subst. now apply IH.
Qed.

Lemma split_files_read_back_witness :
  exists files data,
    split_by_veh [stalled_record; stalled_record] = Some files
    /\ List.In (7, data) files
    /\ length data = 56%nat.
Proof.
  destruct (split_by_veh [stalled_record; stalled_record]) as [files|] eqn:S;
    [|vm_compute in S; discriminate].
  assert (I : exists data, List.In (7, data) files).
  { vm_compute in S. injection S as <-. eexists. left. reflexivity. }
  destruct I as [data I]. exists files, data. split; [reflexivity|].
  split; [exact I|].
  exact (proj1 (proj2 (split_files_read_back _ files 7 data S I))).
Defined.

End Groups.

(** ** The numpy reader against the struct reader *)
Section Rows.
Import Struct parse_edge_transit_log.

Lemma items_blocks (n : nat) : forall data,
  items n data = map row_of (log_parser.blocks n data).
Proof.
  induction n as [|n IH]; intros data; simpl; [reflexivity|].
  now rewrite IH.
Qed.

Lemma int64_small (z : Z) : - 2 ^ 63 <= z < 2 ^ 63 -> int64 z = z.
Proof.
  intros H. unfold int64. rewrite Z.mod_small; lia.
Qed.

Lemma row_of_same_fields (block : list byte) (r : log_parser.EdgeTransitRecord) :
  log_parser.unpack_record block = Some r ->
  same_fields (row_of block) r /\ travel_time (row_of block) = log_parser.transit_time r.
Proof.
  unfold log_parser.unpack_record.
  destruct (length block =? 28)%nat; [|discriminate].
  intros H. injection H as <-. split.
  - unfold same_fields. simpl. repeat split; reflexivity.
  - unfold travel_time, log_parser.transit_time. simpl.
    pose proof (le_uint_below (slice block 16 4) 4 (slice_length _ _ _)) as X.
    pose proof (le_uint_below (slice block 12 4) 4 (slice_length _ _ _)) as E.
    change (2 ^ (8 * Z.of_nat 4)) with (2 ^ 32) in *.
    rewrite (int64_small (le_uint (slice block 16 4))) by lia.
    rewrite (int64_small (le_uint (slice block 12 4))) by lia.
    apply int64_small. lia.
Qed.

(** X17.  On every file [load_log] and [parse_log_file] produce the
    same number of records with the same values in every field, and the
    [travelTime] computed by [to_dataframe] in 64-bit arithmetic is the
    record's [transit_time], with no overflow. *)
Theorem load_log_agrees_with_parse_log_file (file : list byte) :
  exists records,
    log_parser.parse_log_file file = Some records
    /\ List.Forall2 same_fields (load_log file) records
    /\ map travel_time (load_log file) = map log_parser.transit_time records.
Proof.
  destruct (parse_loop_spec file []) as (out & E & F).
  exists out. split; [exact E|].
  assert (L : load_log file = map row_of (log_parser.blocks (length file / 28) file)).
  { unfold load_log. rewrite items_blocks. now destruct (_ <? _). }
  rewrite L. clear E L.
  induction F as [|r block out bs U F [IH1 IH2]]; simpl; [split; constructor|].
  destruct (row_of_same_fields block r U) as [S T]. split.
  - constructor; assumption.
  - now rewrite T, IH2.
Qed.

End Rows.

(** ** The bits that [decode_checkpoint_flags] reads *)
Section FlagBits.
Import fb_parser.

Lemma decode_by_bits (flags : Z) :
  decode_checkpoint_flags flags
  = if flags =? 0 then "COMPLETED"
    else match set_flag_names flags with
         | [] => "UNKNOWN(" ++ Py.str_of_int flags ++ ")"
         | names => Py.join "|" names
         end.
Proof.
  unfold decode_checkpoint_flags. destruct (flags =? 0); [reflexivity|].
  rewrite (flag_name_testbit flags 0 "LOCK_REQUEST" ltac:(lia)
             : flag_name flags 1 _ = _).
  rewrite (flag_name_testbit flags 1 "LOCK_WAIT" ltac:(lia)
             : flag_name flags 2 _ = _).
  rewrite (flag_name_testbit flags 2 "LOCK_RELEASE" ltac:(lia)
             : flag_name flags 4 _ = _).
  rewrite (flag_name_testbit flags 3 "MOVE_PREPARE" ltac:(lia)
             : flag_name flags 8 _ = _).
  fold (set_flag_names flags). destruct (set_flag_names flags); reflexivity.
Qed.

Lemma low_bits_testbit (flags k : Z) :
  0 <= k < 4 -> Z.testbit (Z.land flags 15) k = Z.testbit flags k.
Proof.
  intros H. rewrite Z.land_spec.
  assert (K : k = 0 \/ k = 1 \/ k = 2 \/ k = 3) by lia.
  destruct K as [K|[K|[K|K]]]; subst k; simpl; apply andb_true_r.
Qed.

Lemma low_bits_zero (flags : Z) :
  Z.land flags 15 = 0 <-> set_flag_names flags = [].
Proof.
  unfold set_flag_names. split.
  - intros Z0.
    rewrite <- (low_bits_testbit flags 0), <- (low_bits_testbit flags 1),
            <- (low_bits_testbit flags 2), <- (low_bits_testbit flags 3) by lia.
    rewrite Z0. reflexivity.
  - intros N. apply Z.bits_inj'. intros n Hn. rewrite Z.land_spec, Z.bits_0.
    destruct (Z_lt_dec n 4) as [Lt|Ge].
    + assert (K : n = 0 \/ n = 1 \/ n = 2 \/ n = 3) by lia.
      destruct (Z.testbit flags 0) eqn:B0; [discriminate|].
      destruct (Z.testbit flags 1) eqn:B1; [discriminate|].
      destruct (Z.testbit flags 2) eqn:B2; [discriminate|].
      destruct (Z.testbit flags 3) eqn:B3; [discriminate|].
      destruct K as [K|[K|[K|K]]]; subst n; rewrite ?B0, ?B1, ?B2, ?B3; reflexivity.
    + replace (Z.testbit 15 n) with false; [apply andb_false_r|].
      symmetry. change 15 with (Z.ones 4). apply Z.ones_spec_high. lia.
Qed.

Lemma set_flag_names_low (flags : Z) :
  set_flag_names (Z.land flags 15) = set_flag_names flags.
Proof.
  unfold set_flag_names. now rewrite !low_bits_testbit by lia.
Qed.

(** X18.  [decode_checkpoint_flags] answers "COMPLETED" for 0 only.
    When one of the four low bits is set the answer depends on those four
    bits alone, so the other bits of the value are not shown; when none of
    them is set and the value is not 0 the answer is "UNKNOWN(<value>)". *)
Theorem decode_checkpoint_flags_reads_low_bits (flags : Z) :
  (decode_checkpoint_flags flags = "COMPLETED" <-> flags = 0)
  /\ (Z.land flags 15 <> 0 ->
      decode_checkpoint_flags flags = decode_checkpoint_flags (Z.land flags 15))
  /\ (Z.land flags 15 = 0 -> flags <> 0 ->
      decode_checkpoint_flags flags = "UNKNOWN(" ++ Py.str_of_int flags ++ ")").
Proof.
  rewrite !decode_by_bits. split; [|split].
  - destruct (flags =? 0) eqn:E.
    + apply Z.eqb_eq in E. tauto.
    + apply Z.eqb_neq in E. split; [|tauto]. intros H. exfalso.
      unfold set_flag_names in H.
      destruct (Z.testbit flags 0), (Z.testbit flags 1), (Z.testbit flags 2),
               (Z.testbit flags 3); simpl in H; discriminate.
  - intros N. rewrite set_flag_names_low.
    destruct (Z.land flags 15 =? 0) eqn:E; [apply Z.eqb_eq in E; contradiction|].
    destruct (flags =? 0) eqn:F.
    + apply Z.eqb_eq in F. subst flags. contradiction N. reflexivity.
    + destruct (set_flag_names flags) eqn:S; [|reflexivity].
      apply low_bits_zero in S. contradiction.
  - intros Z0 N. apply low_bits_zero in Z0. rewrite Z0.
    destruct (flags =? 0) eqn:F; [apply Z.eqb_eq in F; contradiction|reflexivity].
Qed.

Lemma decode_checkpoint_flags_reads_low_bits_witness :
  decode_checkpoint_flags 21 = decode_checkpoint_flags 5
  /\ decode_checkpoint_flags 48 = "UNKNOWN(48)".
Proof.
  split.
  - apply (proj1 (proj2 (decode_checkpoint_flags_reads_low_bits 21))).
    vm_compute. discriminate.
  - apply (proj2 (proj2 (decode_checkpoint_flags_reads_low_bits 48)));
      [reflexivity|discriminate].
Defined.

End FlagBits.

(** ** The file name of a source *)
Section FileName.
Import Re sim_log_parser.

(** The first part of a split holds no separator, and the text is that
    part alone or that part, the separator and more. *)
Lemma split_first (sep : ascii) (s : string) :
  exists p ps, Py.split sep s = p :: ps
               /\ Py.has_char sep p = false
               /\ ((ps = [] /\ s = p) \/ exists r, s = p ++ String sep r).
Proof.
  induction s as [|c s (p & ps & E & H & R)]; simpl.
  - exists EmptyString, []. auto.
  - destruct (Ascii.eqb c sep) eqn:C.
    + apply Ascii.eqb_eq in C. subst c.
      exists EmptyString, (Py.split sep s). split; [reflexivity|].
      split; [reflexivity|]. right. now exists s.
    + rewrite E. exists (String c p), ps. split; [reflexivity|]. split.
      * simpl. now rewrite Ascii.eqb_sym, C.
      * destruct R as [[-> ->]|[r ->]]; [left; auto|right; now exists r].
Qed.

Lemma has_char_app (c : ascii) (a b : string) :
  Py.has_char c (a ++ b) = Py.has_char c a || Py.has_char c b.
Proof.
  induction a as [|d a IH]; simpl; [reflexivity|]. now rewrite IH, orb_assoc.
Qed.

(** X20.  [file_name] is the source up to its first colon: it holds no
    colon, and the source is the file name alone or the file name, a
    colon and more.  So a file filter whose names all hold a colon skips
    every entry. *)
Theorem file_name_stops_at_colon (cfg : FilterConfig) (e : LogEntry)
    (fs : gset string) :
  files cfg = Some fs ->
  fs <> ∅ ->
  (forall f, f ∈ fs -> Py.has_char ":" f = true) ->
  Py.has_char ":" (file_name e) = false
  /\ (exists rest, source e = file_name e ++ rest
                   /\ (rest = EmptyString \/ exists r, rest = String ":" r))
  /\ skip_file cfg e = Some true.
Proof.
  intros F N C.
  assert (A : Py.has_char ":" (file_name e) = false
              /\ (exists rest, source e = file_name e ++ rest
                        /\ (rest = EmptyString \/ exists r, rest = String ":" r))).
  { unfold file_name. destruct (Py.has_char ":" (source e)) eqn:H.
    - destruct (split_first ":" (source e)) as (p & ps & E & Hp & R).
      rewrite E. split; [exact Hp|].
      destruct R as [[_ S]|[r S]].
      + rewrite S in H. congruence.
      + exists (String ":" r). split; [exact S|]. right. now exists r.
    - split; [exact H|]. exists EmptyString. split; [|now left].
      clear. induction (source e); simpl; congruence. }
  destruct A as [A B]. split; [exact A|]. split; [exact B|].
  unfold skip_file. rewrite F. unfold truthy_set, not_in.
  rewrite bool_decide_eq_false_2 by assumption.
  rewrite bool_decide_eq_false_2; [reflexivity|].
  intros I. apply C in I. congruence.
Qed.

Lemma file_name_stops_at_colon_witness :
  file_name late_entry = "Foo.ts"
  /\ Py.has_char ":" (file_name late_entry) = false.
Proof.
  split; [reflexivity|].
  refine (proj1 (file_name_stops_at_colon
                   {| levels := None; veh_ids := None; tags := None;
                      files := Some {["Foo.ts:10"]}; include_global := true;
                      time_start := None; time_end := None; search := None |}
                   late_entry {["Foo.ts:10"]} eq_refl _ _)).
  - intros H. assert (I : "Foo.ts:10" ∈ ({["Foo.ts:10"]} : gset string)) by set_solver.
    rewrite H in I. set_solver.
  - intros f I. apply elem_of_singleton in I. subst f. reflexivity.
Defined.

End FileName.

(** ** The table of [print_veh_summary] *)
Section VehSummary.
Import Re sim_log_parser.





Lemma count_of_nonneg k p entries : 0 <= count_of k p entries.
Proof. unfold count_of. lia. Qed.










End VehSummary.
